(** * The constant-expression evaluator of lib/Core/ExecutorUtil.cpp

    A shallow embedding of [Executor::evalConstantExpr] and of the
    interfaces it is written against, followed by the properties of the
    evaluator.

    Layout of the development:
    - [llvm]: the LLVM-side data the evaluator reads (types, opcodes,
      comparison predicates, rounding modes, constants);
    - [result]: the outcome of a call (a value, [abort()] after writes to
      the error stream, or an undefined operation);
    - [IntBuilder], [FloatBuilder], [TargetLayout]: the interfaces of
      [klee::ConstantExpr], [klee::FConstantExpr] and of the data layout;
    - [Evaluator]: [evalConstantExpr] itself, line by line;
    - [Recording], [BitVector], [PackedLayout]: instances of the interfaces;
    - the theorems. *)

From Stdlib Require Import ZArith List String Bool Lia.
Import ListNotations.
Open Scope Z_scope.

#[local] Set Warnings "-register-all".

(** [Expr::Width] is an unsigned bit count. *)
Definition Width := Z.

(** C's [unsigned] is 32 bits wide: a conversion to it keeps the low 32 bits. *)
Definition to_unsigned (v : Z) : Z := v mod 2 ^ 32.

(** ** LLVM-side data *)
Module llvm.

(** [llvm::Type], as far as the evaluator looks at it. *)
Inductive Type_ : Type :=
| IntegerTy (bits : Z)
| FloatingTy (bits : Z)
| PointerTy (pointee : Type_)
| ArrayTy (count : Z) (elem : Type_)
| VectorTy (count : Z) (elem : Type_)
| StructTy (fields : list Type_).

(** [dyn_cast<StructType>]: the field types of a struct type. *)
Definition asStructType (t : Type_) : option (list Type_) :=
  match t with
  | StructTy fields => Some fields
  | _ => None
  end.

(** [SequentialType::getElementType], after [cast<SequentialType>]:
    pointers, arrays and vectors are the sequential types. *)
Definition asSequentialType (t : Type_) : option Type_ :=
  match t with
  | PointerTy e | ArrayTy _ e | VectorTy _ e => Some e
  | _ => None
  end.

(** [APFloat::roundingMode]. *)
Inductive roundingMode : Type :=
| rmNearestTiesToEven
| rmTowardPositive
| rmTowardNegative
| rmTowardZero
| rmNearestTiesToAway.

(** [CmpInst::Predicate]. *)
Inductive Predicate : Type :=
| FCMP_FALSE | FCMP_OEQ | FCMP_OGT | FCMP_OGE | FCMP_OLT | FCMP_OLE
| FCMP_ONE | FCMP_ORD | FCMP_UNO | FCMP_UEQ | FCMP_UGT | FCMP_UGE
| FCMP_ULT | FCMP_ULE | FCMP_UNE | FCMP_TRUE | BAD_FCMP_PREDICATE
| ICMP_EQ | ICMP_NE | ICMP_UGT | ICMP_UGE | ICMP_ULT | ICMP_ULE
| ICMP_SGT | ICMP_SGE | ICMP_SLT | ICMP_SLE | BAD_ICMP_PREDICATE.

(** The opcodes a constant expression can carry: the ones the switch of
    [evalConstantExpr] names, the remaining constant-expression opcodes of
    LLVM, and [OtherOp] for any other value of [getOpcode()]. *)
Module Instruction.
Inductive Opcode : Type :=
| Trunc | ZExt | SExt
| Add | Sub | Mul | SDiv | UDiv | SRem | URem
| And | Or | Xor | Shl | LShr | AShr
| BitCast | IntToPtr | PtrToInt
| GetElementPtr | ICmp | Select
| FAdd | FSub | FMul | FDiv | FRem
| FPTrunc | FPExt | UIToFP | SIToFP | FPToUI | FPToSI | FCmp
| AddrSpaceCast | ExtractElement | InsertElement | ShuffleVector
| ExtractValue | InsertValue
| OtherOp (code : Z).
End Instruction.

(** [llvm::Constant]: integer and floating-point literals (the latter by
    their bit pattern), and constant expressions. *)
Inductive Constant : Type :=
| ConstantInt (bits : Width) (value : Z)
| ConstantFP (bits : Width) (pattern : Z)
| CExpr (opcode : Instruction.Opcode) (predicate : Predicate)
        (type : Type_) (operands : list Constant).

(** [llvm::ConstantExpr]: the node [evalConstantExpr] receives. *)
Record ConstantExpr : Type := mkConstantExpr {
  getOpcode : Instruction.Opcode;
  getPredicate : Predicate;
  getType : Type_;
  operands : list Constant
}.

(** [ConstantInt::getZExtValue]: the literal read as an unsigned number of
    its width. *)
Definition getZExtValue (bits : Width) (value : Z) : Z := value mod 2 ^ bits.

(** [Value::getType] on a constant. *)
Definition typeOf (c : Constant) : Type_ :=
  match c with
  | ConstantInt bits _ => IntegerTy bits
  | ConstantFP bits _ => FloatingTy bits
  | CExpr _ _ ty _ => ty
  end.

(** [CompositeType::getTypeAtIndex] on an index operand: the member type the
    operand selects; [None] where LLVM has no type to give. *)
Definition getTypeAtIndex (t : Type_) (index : Constant) : option Type_ :=
  match t with
  | StructTy fields =>
      match index with
      | ConstantInt bits v =>
          nth_error fields (Z.to_nat (to_unsigned (getZExtValue bits v)))
      | _ => None
      end
  | PointerTy e | ArrayTy _ e | VectorTy _ e => Some e
  | _ => None
  end.

End llvm.

Import llvm.
Module I := llvm.Instruction.

(** ** Outcomes *)

(** What reaches the error stream before the process ends. *)
Inductive Diag : Type :=
| Dump (ce : llvm.ConstantExpr)          (* ce->dump() *)
| ErrsText (s : string)                  (* llvm::errs() << "..." *)
| ErrsOpcode (o : I.Opcode)              (* llvm::errs() << ce->getOpcode() *)
| AssertionFailed (expr : string).       (* a failed assert(), assertions on *)

(** The line feed the messages end with. *)
Definition newline : string := String (Ascii.ascii_of_nat 10) EmptyString.

(** The outcome of a call: it returns [a]; or the process is terminated by
    [abort()], with what was written to the error stream before; or an
    operation outside the contract of the LLVM casting and reference
    templates was executed ([cast<>] on a value of another class, a null
    [ref<>] dereferenced), which those templates leave undefined. *)
Inductive result (A : Type) : Type :=
| Ret (a : A)
| Abort (stderr : list Diag)
| Undefined.
Arguments Ret {A} a.
Arguments Abort {A} stderr.
Arguments Undefined {A}.

Definition bind {A B : Type} (m : result A) (k : A -> result B) : result B :=
  match m with
  | Ret a => k a
  | Abort d => Abort d
  | Undefined => Undefined
  end.

Declare Scope result_scope.
Delimit Scope result_scope with result.
Notation "x <- m ;; k" := (bind m (fun x => k))
  (at level 61, m at next level, right associativity) : result_scope.
Open Scope result_scope.

(** [ref<T>]: a counted reference, possibly null. *)
Definition ref (A : Type) : Type := option A.
Definition null {A : Type} : ref A := None.

(** [r->...]: following a reference. *)
Definition deref {A : Type} (r : ref A) : result A :=
  match r with
  | Some a => Ret a
  | None => Undefined
  end.

(** ** The interfaces the evaluator is written against *)

Module klee.

(** [klee::ConstantExpr]: integer constants of a known width and the
    operations the evaluator calls on them. *)
Class IntBuilder : Type := {
  ConstantExpr : Type;
  alloc : Z -> Width -> ConstantExpr;
  Extract : ConstantExpr -> Z -> Width -> ConstantExpr;
  ZExt : ConstantExpr -> Width -> ConstantExpr;
  SExt : ConstantExpr -> Width -> ConstantExpr;
  Add : ConstantExpr -> ConstantExpr -> ConstantExpr;
  Sub : ConstantExpr -> ConstantExpr -> ConstantExpr;
  Mul : ConstantExpr -> ConstantExpr -> ConstantExpr;
  SDiv : ConstantExpr -> ConstantExpr -> ConstantExpr;
  UDiv : ConstantExpr -> ConstantExpr -> ConstantExpr;
  SRem : ConstantExpr -> ConstantExpr -> ConstantExpr;
  URem : ConstantExpr -> ConstantExpr -> ConstantExpr;
  And : ConstantExpr -> ConstantExpr -> ConstantExpr;
  Or : ConstantExpr -> ConstantExpr -> ConstantExpr;
  Xor : ConstantExpr -> ConstantExpr -> ConstantExpr;
  Shl : ConstantExpr -> ConstantExpr -> ConstantExpr;
  LShr : ConstantExpr -> ConstantExpr -> ConstantExpr;
  AShr : ConstantExpr -> ConstantExpr -> ConstantExpr;
  Eq : ConstantExpr -> ConstantExpr -> ConstantExpr;
  Ne : ConstantExpr -> ConstantExpr -> ConstantExpr;
  Ugt : ConstantExpr -> ConstantExpr -> ConstantExpr;
  Uge : ConstantExpr -> ConstantExpr -> ConstantExpr;
  Ult : ConstantExpr -> ConstantExpr -> ConstantExpr;
  Ule : ConstantExpr -> ConstantExpr -> ConstantExpr;
  Sgt : ConstantExpr -> ConstantExpr -> ConstantExpr;
  Sge : ConstantExpr -> ConstantExpr -> ConstantExpr;
  Slt : ConstantExpr -> ConstantExpr -> ConstantExpr;
  Sle : ConstantExpr -> ConstantExpr -> ConstantExpr;
  isTrue : ConstantExpr -> bool
}.

(** [klee::FConstantExpr]: floating-point constants, and the operations with
    a floating-point operand or result. Each operation that rounds takes the
    rounding mode as an argument. *)
Class FloatBuilder (IB : IntBuilder) : Type := {
  FConstantExpr : Type;
  falloc : Z -> Width -> FConstantExpr;
  FAdd : FConstantExpr -> FConstantExpr -> roundingMode -> FConstantExpr;
  FSub : FConstantExpr -> FConstantExpr -> roundingMode -> FConstantExpr;
  FMul : FConstantExpr -> FConstantExpr -> roundingMode -> FConstantExpr;
  FDiv : FConstantExpr -> FConstantExpr -> roundingMode -> FConstantExpr;
  FRem : FConstantExpr -> FConstantExpr -> roundingMode -> FConstantExpr;
  FExt : FConstantExpr -> Width -> roundingMode -> FConstantExpr;
  UToF : ConstantExpr -> Width -> roundingMode -> FConstantExpr;
  SToF : ConstantExpr -> Width -> roundingMode -> FConstantExpr;
  FToU : FConstantExpr -> Width -> roundingMode -> ConstantExpr;
  FToS : FConstantExpr -> Width -> roundingMode -> ConstantExpr;
  FOeq : FConstantExpr -> FConstantExpr -> ConstantExpr;
  FOgt : FConstantExpr -> FConstantExpr -> ConstantExpr;
  FOge : FConstantExpr -> FConstantExpr -> ConstantExpr;
  FOlt : FConstantExpr -> FConstantExpr -> ConstantExpr;
  FOle : FConstantExpr -> FConstantExpr -> ConstantExpr;
  FOne : FConstantExpr -> FConstantExpr -> ConstantExpr;
  FOrd : FConstantExpr -> FConstantExpr -> ConstantExpr;
  FUno : FConstantExpr -> FConstantExpr -> ConstantExpr;
  FUeq : FConstantExpr -> FConstantExpr -> ConstantExpr;
  FUgt : FConstantExpr -> FConstantExpr -> ConstantExpr;
  FUge : FConstantExpr -> FConstantExpr -> ConstantExpr;
  FUlt : FConstantExpr -> FConstantExpr -> ConstantExpr;
  FUle : FConstantExpr -> FConstantExpr -> ConstantExpr;
  FUne : FConstantExpr -> FConstantExpr -> ConstantExpr
}.

End klee.

Import klee.

(** The data layout of the target ([Context::get()], [kmodule->targetData],
    [Executor::getWidthForLLVMType]); it belongs to LLVM and to the loaded
    module, and the evaluator only queries it. *)
Class TargetLayout : Type := {
  getPointerWidth : Width;
  getWidthForLLVMType : Type_ -> Width;
  getTypeAllocSize : Type_ -> Z;
  getElementOffset : list Type_ -> Z -> Z
}.

(** [klee::Expr], restricted to the two kinds the evaluator produces. *)
Inductive Expr `{FB : FloatBuilder} : Type :=
| Constant_ (c : ConstantExpr)
| FConstant (f : FConstantExpr).

(** The outcomes that return an integer and a floating-point constant. *)
Definition RetConstant `{FB : FloatBuilder} (c : ConstantExpr)
    : result (ref Expr) :=
  Ret (Some (Constant_ c)).

Definition RetFConstant `{FB : FloatBuilder} (f : FConstantExpr)
    : result (ref Expr) :=
  Ret (Some (FConstant f)).

(** ** The evaluator *)

Section Evaluator.

Context {IB : IntBuilder} {FB : FloatBuilder IB} {TL : TargetLayout}.

(** [<cassert>]: with [NDEBUG] defined, [assert] expands to nothing. *)
Variable NDEBUG : bool.

(** [Executor::evalConstant], the evaluator of arbitrary constants that
    [evalConstantExpr] calls on its operands (and that calls it back on
    constant expressions). It is defined in Executor.cpp. *)
Variable evalConstant : llvm.Constant -> result (ref Expr).

(** [assert(0 && msg); rest]: the process is terminated with the failed
    assertion on the error stream, unless the assertion is compiled out;
    then control goes on into [rest]. *)
Definition assert_false {A : Type} (msg : string) (rest : result A) : result A :=
  if NDEBUG then rest else Abort [AssertionFailed msg].

(** The two assertions of [llvm::cast] (llvm/Support/Casting.h): on a null
    pointer, and on an object of another class. *)
Definition null_pointer : string := "isa<> used on a null pointer".
Definition incompatible_type : string :=
  "cast<Ty>() argument of incompatible type!".

(** [cast<T>(v)->...] on a [v] that is null or of another class: with
    assertions the assertion of [llvm::cast] fails; with [NDEBUG] the check
    is gone, the pointer is converted as it is and the member access
    through it is undefined. *)
Definition cast_failure {A : Type} (msg : string) : result A :=
  assert_false msg Undefined.

(** [cast<ConstantExpr>(r)->...] on a [ref<Expr>]: the cast and the access
    to the constant behind it. *)
Definition cast_ConstantExpr (r : ref Expr) : result ConstantExpr :=
  match r with
  | Some (Constant_ c) => Ret c
  | Some (FConstant _) => cast_failure incompatible_type
  | None => cast_failure null_pointer
  end.

(** [cast<FConstantExpr>(r)->...] on a [ref<Expr>]. *)
Definition cast_FConstantExpr (r : ref Expr) : result FConstantExpr :=
  match r with
  | Some (FConstant f) => Ret f
  | Some (Constant_ _) => cast_failure incompatible_type
  | None => cast_failure null_pointer
  end.

(** [return cast<ConstantExpr>(r);] (line 82): the cast alone, its result
    converted back to a [ref<Expr>] without an access through it. With
    [NDEBUG] a null reference passes and is returned; the conversion of an
    object of another class stays undefined. *)
Definition cast_ConstantExpr_only (r : ref Expr) : result (ref Expr) :=
  match r with
  | Some (Constant_ c) => Ret (Some (Constant_ c))
  | Some (FConstant _) => cast_failure incompatible_type
  | None => assert_false null_pointer (Ret null)
  end.

(** [cast<ConstantInt>(v)->getZExtValue()] on an LLVM operand. *)
Definition cast_ConstantInt_getZExtValue (v : llvm.Constant) : result Z :=
  match v with
  | ConstantInt bits value => Ret (getZExtValue bits value)
  | _ => cast_failure incompatible_type
  end.

(** [cast<SequentialType>(t)] on an LLVM type (line 106), before anything
    is read through the pointer: the element type of a sequential type;
    with [NDEBUG] any other type passes, as a pointer that
    [set->getElementType()] (line 110) cannot be followed through. *)
Definition cast_SequentialType (t : Type_) : result (option Type_) :=
  match asSequentialType t with
  | Some elementType => Ret (Some elementType)
  | None => assert_false incompatible_type (Ret None)
  end.

(** [*ii] handed to [dyn_cast<StructType>], which asserts that it is not
    null. *)
Definition gep_type_deref (CurTy : option Type_) : result Type_ :=
  match CurTy with
  | Some ty => Ret ty
  | None => cast_failure null_pointer
  end.

(** Modelled from the spec: [Expr::isTrue] is declared in klee/Expr.h, which
    is not among the sources. The spec has Select take "the second operand
    if the first operand's concrete truth value is true": an integer
    constant answers through its own [isTrue], no other expression is the
    true constant. *)
Definition Expr_isTrue (e : Expr) : bool :=
  match e with
  | Constant_ c => isTrue c
  | FConstant _ => false
  end.

(** [if (numOperands > i) op = evalConstant(ce->getOperand(i));] on a
    reference initialised to null. *)
Definition evalOperand (ce : llvm.ConstantExpr) (i : nat) : result (ref Expr) :=
  nth i (map evalConstant (operands ce)) (Ret null).

(** Lifting the binary and unary cases of the switch. *)
Definition int2 (f : ConstantExpr -> ConstantExpr -> ConstantExpr)
    (op1 op2 : ref Expr) : result (ref Expr) :=
  a <- cast_ConstantExpr op1 ;;
  b <- cast_ConstantExpr op2 ;;
  Ret (Some (Constant_ (f a b))).

Definition int1 (f : ConstantExpr -> ConstantExpr)
    (op1 : ref Expr) : result (ref Expr) :=
  a <- cast_ConstantExpr op1 ;;
  Ret (Some (Constant_ (f a))).

Definition float2 (f : FConstantExpr -> FConstantExpr -> FConstantExpr)
    (op1 op2 : ref Expr) : result (ref Expr) :=
  a <- cast_FConstantExpr op1 ;;
  b <- cast_FConstantExpr op2 ;;
  Ret (Some (FConstant (f a b))).

Definition fcmp2 (f : FConstantExpr -> FConstantExpr -> ConstantExpr)
    (op1 op2 : ref Expr) : result (ref Expr) :=
  a <- cast_FConstantExpr op1 ;;
  b <- cast_FConstantExpr op2 ;;
  Ret (Some (Constant_ (f a b))).

(** One step of the loop of the GetElementPtr case (lines 95-115): the
    addend for the aggregate type [ty] indexed by [operand]. *)
Definition gepAddend (ty : Type_) (operand : llvm.Constant) : result ConstantExpr :=
  match asStructType ty with
  | Some st =>
      ci <- cast_ConstantInt_getZExtValue operand ;;
      Ret (alloc (getElementOffset st (to_unsigned ci)) getPointerWidth)
  | None =>
      set <- cast_SequentialType ty ;;
      e <- evalConstant operand ;;
      index <- cast_ConstantExpr e ;;
      elementType <- deref set ;;
      let elementSize := to_unsigned (getTypeAllocSize elementType) in
      let index := ZExt index getPointerWidth in
      Ret (Mul index (alloc elementSize getPointerWidth))
  end.

(** Modelled from the spec: klee/util/GetElementPtrTypeIterator.h is not
    among the sources. The spec walks "each subsequent index in the
    type-indexed path": the iterator pairs every operand after the first
    with the aggregate type it indexes. [gep_type_begin(ce)] starts at the
    type of the pointer operand. *)
Definition gep_type_begin (ce : llvm.ConstantExpr) : option Type_ :=
  option_map typeOf (hd_error (operands ce)).

(** Modelled from the spec: the operands the iterator visits between
    [gep_type_begin(ce)] and [gep_type_end(ce)], all but the first. *)
Definition gep_indices (ops : list llvm.Constant) : list llvm.Constant :=
  match ops with
  | _ :: indices => indices
  | [] => ops
  end.

(** Modelled from the spec: [++ii] moves on to the member type that the
    index operand selects in the type just indexed. *)
Definition gep_type_next (ty : Type_) (operand : llvm.Constant) : option Type_ :=
  getTypeAtIndex ty operand.

(** The loop of lines 93-118, from an iterator that stands at the type
    [CurTy] with the operands [indices] left to visit: [*ii] is [CurTy] and
    [ii.getOperand()] the first of [indices]. *)
Fixpoint gepLoop (CurTy : option Type_) (indices : list llvm.Constant)
    (base : ConstantExpr) : result ConstantExpr :=
  match indices with
  | [] => Ret base
  | operand :: rest =>
      ty <- gep_type_deref CurTy ;;
      addend <- gepAddend ty operand ;;
      gepLoop (gep_type_next ty operand) rest (Add base addend)
  end.

(** The switch on the predicate of an ICmp node (lines 124-136). The
    [default] label comes first and has no [return]: past its assertion,
    control falls into the [ICMP_EQ] case. *)
Definition evalICmp (p : Predicate) (op1 op2 : ref Expr) : result (ref Expr) :=
  match p with
  | ICMP_EQ => int2 Eq op1 op2
  | ICMP_NE => int2 Ne op1 op2
  | ICMP_UGT => int2 Ugt op1 op2
  | ICMP_UGE => int2 Uge op1 op2
  | ICMP_ULT => int2 Ult op1 op2
  | ICMP_ULE => int2 Ule op1 op2
  | ICMP_SGT => int2 Sgt op1 op2
  | ICMP_SGE => int2 Sge op1 op2
  | ICMP_SLT => int2 Slt op1 op2
  | ICMP_SLE => int2 Sle op1 op2
  | _ => assert_false "unhandled ICmp predicate" (int2 Eq op1 op2)
  end.

(** The switch on the predicate of an FCmp node (lines 155-171); its
    [default] label falls into the [FCMP_OEQ] case. *)
Definition evalFCmp (p : Predicate) (op1 op2 : ref Expr) : result (ref Expr) :=
  match p with
  | FCMP_OEQ => fcmp2 FOeq op1 op2
  | FCMP_OGT => fcmp2 FOgt op1 op2
  | FCMP_OGE => fcmp2 FOge op1 op2
  | FCMP_OLT => fcmp2 FOlt op1 op2
  | FCMP_OLE => fcmp2 FOle op1 op2
  | FCMP_ONE => fcmp2 FOne op1 op2
  | FCMP_ORD => fcmp2 FOrd op1 op2
  | FCMP_UNO => fcmp2 FUno op1 op2
  | FCMP_UEQ => fcmp2 FUeq op1 op2
  | FCMP_UGT => fcmp2 FUgt op1 op2
  | FCMP_UGE => fcmp2 FUge op1 op2
  | FCMP_ULT => fcmp2 FUlt op1 op2
  | FCMP_ULE => fcmp2 FUle op1 op2
  | FCMP_UNE => fcmp2 FUne op1 op2
  | _ => assert_false "unhandled FCmp predicate" (fcmp2 FOeq op1 op2)
  end.

(** The diagnostic of the [default] case of the opcode switch (lines 60-62). *)
Definition unknownConstantExpr (ce : llvm.ConstantExpr) : list Diag :=
  [ Dump ce;
    ErrsText ("error: unknown ConstantExpr type" ++ newline);
    ErrsText "opcode: ";
    ErrsOpcode (getOpcode ce);
    ErrsText newline ].

(** The switch on the opcode (lines 58-173), on the evaluated operands. The
    [FPTrunc] label has no statement of its own and falls into the [FPExt]
    case (lines 147-149). *)
Definition dispatch (ce : llvm.ConstantExpr) (op1 op2 op3 : ref Expr)
    : result (ref Expr) :=
  let type := getType ce in
  match getOpcode ce with
  | I.Trunc => int1 (fun a => Extract a 0 (getWidthForLLVMType type)) op1
  | I.ZExt => int1 (fun a => ZExt a (getWidthForLLVMType type)) op1
  | I.SExt => int1 (fun a => SExt a (getWidthForLLVMType type)) op1
  | I.Add => int2 Add op1 op2
  | I.Sub => int2 Sub op1 op2
  | I.Mul => int2 Mul op1 op2
  | I.SDiv => int2 SDiv op1 op2
  | I.UDiv => int2 UDiv op1 op2
  | I.SRem => int2 SRem op1 op2
  | I.URem => int2 URem op1 op2
  | I.And => int2 And op1 op2
  | I.Or => int2 Or op1 op2
  | I.Xor => int2 Xor op1 op2
  | I.Shl => int2 Shl op1 op2
  | I.LShr => int2 LShr op1 op2
  | I.AShr => int2 AShr op1 op2
  | I.BitCast => cast_ConstantExpr_only op1
  | I.IntToPtr => int1 (fun a => ZExt a (getWidthForLLVMType type)) op1
  | I.PtrToInt => int1 (fun a => ZExt a (getWidthForLLVMType type)) op1
  | I.GetElementPtr =>
      a <- cast_ConstantExpr op1 ;;
      let base := ZExt a getPointerWidth in
      r <- gepLoop (gep_type_begin ce) (gep_indices (operands ce)) base ;;
      Ret (Some (Constant_ r))
  | I.ICmp => evalICmp (getPredicate ce) op1 op2
  | I.Select =>
      c <- deref op1 ;;
      Ret (if Expr_isTrue c then op2 else op3)
  | I.FAdd => float2 (fun a b => FAdd a b rmNearestTiesToEven) op1 op2
  | I.FSub => float2 (fun a b => FSub a b rmNearestTiesToEven) op1 op2
  | I.FMul => float2 (fun a b => FMul a b rmNearestTiesToEven) op1 op2
  | I.FDiv => float2 (fun a b => FDiv a b rmNearestTiesToEven) op1 op2
  | I.FRem => float2 (fun a b => FRem a b rmNearestTiesToEven) op1 op2
  | I.FPTrunc | I.FPExt =>
      a <- cast_FConstantExpr op1 ;;
      Ret (Some (FConstant
        (FExt a (getWidthForLLVMType type) rmNearestTiesToEven)))
  | I.UIToFP =>
      a <- cast_ConstantExpr op1 ;;
      Ret (Some (FConstant
        (UToF a (getWidthForLLVMType type) rmNearestTiesToEven)))
  | I.SIToFP =>
      a <- cast_ConstantExpr op1 ;;
      Ret (Some (FConstant
        (SToF a (getWidthForLLVMType type) rmNearestTiesToEven)))
  | I.FPToUI =>
      a <- cast_FConstantExpr op1 ;;
      Ret (Some (Constant_
        (FToU a (getWidthForLLVMType type) rmNearestTiesToEven)))
  | I.FPToSI =>
      a <- cast_FConstantExpr op1 ;;
      Ret (Some (Constant_
        (FToS a (getWidthForLLVMType type) rmNearestTiesToEven)))
  | I.FCmp => evalFCmp (getPredicate ce) op1 op2
  | _ => Abort (unknownConstantExpr ce)
  end.

(** [Executor::evalConstantExpr] (lines 48-180): the first three operands
    are evaluated, in order, before the switch is entered. Every path of the
    switch returns or aborts, so lines 174-179 are never reached. *)
Definition evalConstantExpr (ce : llvm.ConstantExpr) : result (ref Expr) :=
  op1 <- evalOperand ce 0 ;;
  op2 <- evalOperand ce 1 ;;
  op3 <- evalOperand ce 2 ;;
  dispatch ce op1 op2 op3.

End Evaluator.

(** ** Tying the knot *)

Section Fold.

Context {IB : IntBuilder} {FB : FloatBuilder IB} {TL : TargetLayout}.
Variable NDEBUG : bool.

(** Modelled from the spec: [Executor::evalConstant] is defined in
    Executor.cpp, which is not among the sources. The spec has the folder
    make "a single recursive, post-order traversal" in which "operands are
    evaluated first"; literals become the builders' constants
    ("integerConstant(value, width) builds a width-exact bit-vector
    constant", the float builder "constructs floating-point constant
    nodes"), and a constant expression goes to [evalConstantExpr]. *)
Fixpoint evalConstant (c : llvm.Constant) : result (ref Expr) :=
  match c with
  | ConstantInt bits value => Ret (Some (Constant_ (alloc value bits)))
  | ConstantFP bits pattern => Ret (Some (FConstant (falloc pattern bits)))
  | CExpr opcode predicate type ops =>
      evalConstantExpr NDEBUG evalConstant
        (mkConstantExpr opcode predicate type ops)
  end.

(** [fold], the entry point the spec names, on a constant-expression node. *)
Definition fold (ce : llvm.ConstantExpr) : result (ref Expr) :=
  evalConstantExpr NDEBUG evalConstant ce.

End Fold.

(** ** A recording builder

    The free instance of both builder interfaces: every call builds a node
    that names the method called and keeps its arguments, so the outcome of
    a fold is the tree of the builder calls that made it. *)
Module Recording.

Inductive node : Type :=
| Const (v : Z) (w : Width)
| FConst (pattern : Z) (w : Width)
| Resize (method : string) (a : node) (offset : Z) (w : Width)
| Binary (method : string) (a b : node)
| Rounded2 (method : string) (a b : node) (rm : roundingMode)
| Rounded1 (method : string) (a : node) (w : Width) (rm : roundingMode).

(** The true constant is the one-bit constant 1. *)
Definition isTrue (n : node) : bool :=
  match n with
  | Const 1 1 => true
  | _ => false
  end.

Definition ints : IntBuilder := {|
  ConstantExpr := node;
  alloc := Const;
  Extract := Resize "Extract";
  ZExt a w := Resize "ZExt" a 0 w;
  SExt a w := Resize "SExt" a 0 w;
  Add := Binary "Add"; Sub := Binary "Sub"; Mul := Binary "Mul";
  SDiv := Binary "SDiv"; UDiv := Binary "UDiv";
  SRem := Binary "SRem"; URem := Binary "URem";
  And := Binary "And"; Or := Binary "Or"; Xor := Binary "Xor";
  Shl := Binary "Shl"; LShr := Binary "LShr"; AShr := Binary "AShr";
  Eq := Binary "Eq"; Ne := Binary "Ne";
  Ugt := Binary "Ugt"; Uge := Binary "Uge";
  Ult := Binary "Ult"; Ule := Binary "Ule";
  Sgt := Binary "Sgt"; Sge := Binary "Sge";
  Slt := Binary "Slt"; Sle := Binary "Sle";
  klee.isTrue := isTrue
|}.

Definition floats : FloatBuilder ints := {|
  FConstantExpr := node;
  falloc := FConst;
  FAdd := Rounded2 "FAdd"; FSub := Rounded2 "FSub";
  FMul := Rounded2 "FMul"; FDiv := Rounded2 "FDiv";
  FRem := Rounded2 "FRem";
  FExt := Rounded1 "FExt";
  UToF := Rounded1 "UToF" : @ConstantExpr ints -> _;
  SToF := Rounded1 "SToF" : @ConstantExpr ints -> _;
  FToU := Rounded1 "FToU"; FToS := Rounded1 "FToS";
  FOeq := Binary "FOeq"; FOgt := Binary "FOgt"; FOge := Binary "FOge";
  FOlt := Binary "FOlt"; FOle := Binary "FOle"; FOne := Binary "FOne";
  FOrd := Binary "FOrd"; FUno := Binary "FUno"; FUeq := Binary "FUeq";
  FUgt := Binary "FUgt"; FUge := Binary "FUge"; FUlt := Binary "FUlt";
  FUle := Binary "FUle"; FUne := Binary "FUne"
|}.

(** The rounding modes a tree of calls carries, in order. *)
Fixpoint roundingModes (n : node) : list roundingMode :=
  match n with
  | Const _ _ | FConst _ _ => []
  | Resize _ a _ _ => roundingModes a
  | Binary _ a b => roundingModes a ++ roundingModes b
  | Rounded2 _ a b rm => roundingModes a ++ roundingModes b ++ [rm]
  | Rounded1 _ a _ rm => roundingModes a ++ [rm]
  end.

(** The tree behind an expression of the recording builders. *)
Definition nodeOf (e : @Expr ints floats) : node :=
  match e with
  | Constant_ c => c
  | FConstant f => f
  end.

(** The two kinds of expression over the recording builders. *)
Definition constant (n : node) : @Expr ints floats := Constant_ (n : @ConstantExpr ints).
Definition fconstant (n : node) : @Expr ints floats :=
  FConstant (n : @FConstantExpr ints floats).

(** A tree of calls every rounding operation of which was asked to round to
    nearest, ties to even. *)
Definition nearestEvenOnly (n : node) : Prop :=
  Forall (eq rmNearestTiesToEven) (roundingModes n).

Definition nearestEvenRef (r : ref (@Expr ints floats)) : Prop :=
  match r with
  | Some e => nearestEvenOnly (nodeOf e)
  | None => True
  end.

Definition nearestEvenResult (m : result (ref (@Expr ints floats))) : Prop :=
  match m with
  | Ret r => nearestEvenRef r
  | _ => True
  end.

End Recording.

(** ** Bit vectors *)
Module BitVector.

(** A constant of [width] bits, by its unsigned value. *)
Record bv : Type := mk { value : Z; width : Width }.

(** Modelled from the spec: the methods of [klee::ConstantExpr] are defined
    in lib/Expr/Expr.cpp, which is not among the sources. The spec:
    "integerConstant(value, width) builds a width-exact bit-vector
    constant". *)
Definition alloc (v : Z) (w : Width) : bv := mk (v mod 2 ^ w) w.

(** A constant whose value fits its width. *)
Definition wellFormed (c : bv) : Prop := 0 <= value c < 2 ^ width c.

(** The value of a constant read in two's complement. *)
Definition signed (c : bv) : Z :=
  if Z.testbit (value c) (width c - 1) then value c - 2 ^ width c
  else value c.

(** Modelled from the spec: "Trunc extracts the low N bits of the operand
    (no sign handling)"; [Extract] takes the [w] bits from bit [offset] up. *)
Definition Extract (c : bv) (offset : Z) (w : Width) : bv :=
  alloc (Z.shiftr (value c) offset) w.

(** Modelled from the spec: "ZExt/SExt extend to the declared width, zero-
    or sign-filling respectively", and "result bit width always equals the
    declared result type's width". *)
Definition ZExt (c : bv) (w : Width) : bv := alloc (value c) w.
Definition SExt (c : bv) (w : Width) : bv := alloc (signed c) w.

(** Modelled from the spec: each of Add, Sub, Mul, And, Or, Xor applies "the
    corresponding fixed-width, two's-complement, wraparound-semantics binary
    operation". *)
Definition Add (a b : bv) : bv := alloc (value a + value b) (width a).
Definition Sub (a b : bv) : bv := alloc (value a - value b) (width a).
Definition Mul (a b : bv) : bv := alloc (value a * value b) (width a).
Definition And (a b : bv) : bv := alloc (Z.land (value a) (value b)) (width a).
Definition Or (a b : bv) : bv := alloc (Z.lor (value a) (value b)) (width a).
Definition Xor (a b : bv) : bv := alloc (Z.lxor (value a) (value b)) (width a).

(** Modelled from the spec: the ten comparisons, "each producing a
    single-bit boolean constant": equal, not-equal, and greater,
    greater-or-equal, less, less-or-equal on the unsigned and on the signed
    reading. *)
Definition boolean (b : bool) : bv := alloc (if b then 1 else 0) 1.
Definition Eq (a b : bv) : bv := boolean (value a =? value b).
Definition Ne (a b : bv) : bv := boolean (negb (value a =? value b)).
Definition Ugt (a b : bv) : bv := boolean (value a >? value b).
Definition Uge (a b : bv) : bv := boolean (value a >=? value b).
Definition Ult (a b : bv) : bv := boolean (value a <? value b).
Definition Ule (a b : bv) : bv := boolean (value a <=? value b).
Definition Sgt (a b : bv) : bv := boolean (signed a >? signed b).
Definition Sge (a b : bv) : bv := boolean (signed a >=? signed b).
Definition Slt (a b : bv) : bv := boolean (signed a <? signed b).
Definition Sle (a b : bv) : bv := boolean (signed a <=? signed b).

(** Modelled from the spec: "a true boolean constant" is the single-bit
    constant 1. *)
Definition isTrue (c : bv) : bool := (width c =? 1) && (value c =? 1).

(** Division, remainder and the shifts: the spec leaves division by zero
    and shift amounts beyond the width open ("the Expression Builder's
    responsibility, not redefined here"), so they stay parameters. *)
Record Delegated : Type := {
  SDiv : bv -> bv -> bv;
  UDiv : bv -> bv -> bv;
  SRem : bv -> bv -> bv;
  URem : bv -> bv -> bv;
  Shl : bv -> bv -> bv;
  LShr : bv -> bv -> bv;
  AShr : bv -> bv -> bv
}.

Definition ints (d : Delegated) : IntBuilder := {|
  ConstantExpr := bv;
  klee.alloc := alloc;
  klee.Extract := Extract;
  klee.ZExt := ZExt; klee.SExt := SExt;
  klee.Add := Add; klee.Sub := Sub; klee.Mul := Mul;
  klee.SDiv := SDiv d; klee.UDiv := UDiv d;
  klee.SRem := SRem d; klee.URem := URem d;
  klee.And := And; klee.Or := Or; klee.Xor := Xor;
  klee.Shl := Shl d; klee.LShr := LShr d; klee.AShr := AShr d;
  klee.Eq := Eq; klee.Ne := Ne;
  klee.Ugt := Ugt; klee.Uge := Uge;
  klee.Ult := Ult; klee.Ule := Ule;
  klee.Sgt := Sgt; klee.Sge := Sge;
  klee.Slt := Slt; klee.Sle := Sle;
  klee.isTrue := isTrue
|}.

End BitVector.

(** ** A data layout

    A 64-bit target without padding: an integer or floating-point type
    occupies its bits rounded up to bytes, a pointer eight bytes, an array or
    vector its elements in a row, and a struct its fields in a row, each at
    the end of the one before. *)
Module PackedLayout.

Fixpoint allocSize (t : Type_) : Z :=
  match t with
  | IntegerTy bits | FloatingTy bits => (bits + 7) / 8
  | PointerTy _ => 8
  | ArrayTy count elem | VectorTy count elem => count * allocSize elem
  | StructTy fields => fold_right Z.add 0 (map allocSize fields)
  end.

Definition elementOffset (fields : list Type_) (index : Z) : Z :=
  fold_right Z.add 0 (map allocSize (firstn (Z.to_nat index) fields)).

Definition widthOf (t : Type_) : Width :=
  match t with
  | IntegerTy bits | FloatingTy bits => bits
  | _ => 8 * allocSize t
  end.

Definition layout : TargetLayout := {|
  getPointerWidth := 64;
  getWidthForLLVMType := widthOf;
  getTypeAllocSize := allocSize;
  getElementOffset := elementOffset
|}.

End PackedLayout.

(** ** The closed sets of the switches *)

(** The opcodes the switch of [evalConstantExpr] has a case for. *)
Definition supportedOpcode (o : I.Opcode) : bool :=
  match o with
  | I.Trunc | I.ZExt | I.SExt
  | I.Add | I.Sub | I.Mul | I.SDiv | I.UDiv | I.SRem | I.URem
  | I.And | I.Or | I.Xor | I.Shl | I.LShr | I.AShr
  | I.BitCast | I.IntToPtr | I.PtrToInt
  | I.GetElementPtr | I.ICmp | I.Select
  | I.FAdd | I.FSub | I.FMul | I.FDiv | I.FRem
  | I.FPTrunc | I.FPExt | I.UIToFP | I.SIToFP | I.FPToUI | I.FPToSI
  | I.FCmp => true
  | _ => false
  end.

(** The ten predicates of the integer table. *)
Definition icmpTable (p : Predicate) : bool :=
  match p with
  | ICMP_EQ | ICMP_NE | ICMP_UGT | ICMP_UGE | ICMP_ULT | ICMP_ULE
  | ICMP_SGT | ICMP_SGE | ICMP_SLT | ICMP_SLE => true
  | _ => false
  end.

(** The fourteen predicates of the floating-point table. *)
Definition fcmpTable (p : Predicate) : bool :=
  match p with
  | FCMP_OEQ | FCMP_OGT | FCMP_OGE | FCMP_OLT | FCMP_OLE | FCMP_ONE
  | FCMP_ORD | FCMP_UNO | FCMP_UEQ | FCMP_UGT | FCMP_UGE | FCMP_ULT
  | FCMP_ULE | FCMP_UNE => true
  | _ => false
  end.

(** ** Induction on constants, through the operand lists *)

Fixpoint Constant_nested_ind (P : llvm.Constant -> Prop)
    (Hint : forall bits value, P (ConstantInt bits value))
    (Hfp : forall bits pattern, P (ConstantFP bits pattern))
    (Hexpr : forall o p ty ops, Forall P ops -> P (CExpr o p ty ops))
    (c : llvm.Constant) {struct c} : P c :=
  match c with
  | ConstantInt bits value => Hint bits value
  | ConstantFP bits pattern => Hfp bits pattern
  | CExpr o p ty ops =>
      Hexpr o p ty ops
        ((fix all (l : list llvm.Constant) : Forall P l :=
            match l with
            | [] => Forall_nil P
            | x :: r =>
                Forall_cons x (Constant_nested_ind P Hint Hfp Hexpr x) (all r)
            end) ops)
  end.

(** ** The operations as the specification words them *)

Section SpecWording.

Context {IB : IntBuilder} {FB : FloatBuilder IB} {TL : TargetLayout}.
Variable NDEBUG : bool.
Variable evalConstant : llvm.Constant -> result (ref Expr).

(** The eleven rounding operations of the specification, "FAdd, FSub, FMul,
    FDiv, FRem", "FPTrunc/FPExt", "UIToFP/SIToFP", "FPToUI/FPToSI", as the
    call of the Float Expression Builder each stands for, at the declared
    width [w] and with the rounding mode [rm] handed over. *)
Definition floatOperation (rm : roundingMode) (o : I.Opcode) (w : Width)
    (op1 op2 : ref Expr) : option (result (ref Expr)) :=
  match o with
  | I.FAdd => Some (float2 NDEBUG (fun a b => FAdd a b rm) op1 op2)
  | I.FSub => Some (float2 NDEBUG (fun a b => FSub a b rm) op1 op2)
  | I.FMul => Some (float2 NDEBUG (fun a b => FMul a b rm) op1 op2)
  | I.FDiv => Some (float2 NDEBUG (fun a b => FDiv a b rm) op1 op2)
  | I.FRem => Some (float2 NDEBUG (fun a b => FRem a b rm) op1 op2)
  | I.FPTrunc | I.FPExt =>
      Some (a <- cast_FConstantExpr NDEBUG op1 ;;
            Ret (Some (FConstant (FExt a w rm))))
  | I.UIToFP =>
      Some (a <- cast_ConstantExpr NDEBUG op1 ;;
            Ret (Some (FConstant (UToF a w rm))))
  | I.SIToFP =>
      Some (a <- cast_ConstantExpr NDEBUG op1 ;;
            Ret (Some (FConstant (SToF a w rm))))
  | I.FPToUI =>
      Some (a <- cast_FConstantExpr NDEBUG op1 ;;
            Ret (Some (Constant_ (FToU a w rm))))
  | I.FPToSI =>
      Some (a <- cast_FConstantExpr NDEBUG op1 ;;
            Ret (Some (Constant_ (FToS a w rm))))
  | _ => None
  end.

(** The addend of a GetElementPtr step in the words of the specification:
    "if the indexed aggregate is a struct, the addend is the byte offset of
    the indicated field, queried from Target Layout"; "otherwise the addend
    is zero_extend(index_value) * byte_size_of(element_type), with the
    element size queried from Target Layout". *)
Definition gepAddendSpec (ty : Type_) (operand : llvm.Constant)
    : result ConstantExpr :=
  match asStructType ty with
  | Some st =>
      field <- cast_ConstantInt_getZExtValue NDEBUG operand ;;
      Ret (alloc (getElementOffset st field) getPointerWidth)
  | None =>
      set <- cast_SequentialType NDEBUG ty ;;
      e <- evalConstant operand ;;
      index <- cast_ConstantExpr NDEBUG e ;;
      elementType <- deref set ;;
      Ret (Mul (ZExt index getPointerWidth)
               (alloc (getTypeAllocSize elementType) getPointerWidth))
  end.

(** "The running base accumulates the addend after each step; the final
    base is the result." *)
Fixpoint gepLoopSpec (CurTy : option Type_) (indices : list llvm.Constant)
    (base : ConstantExpr) : result ConstantExpr :=
  match indices with
  | [] => Ret base
  | operand :: rest =>
      ty <- gep_type_deref NDEBUG CurTy ;;
      addend <- gepAddendSpec ty operand ;;
      gepLoopSpec (gep_type_next ty operand) rest (Add base addend)
  end.

(** The fold of a GetElementPtr node in the words of the specification:
    the operands are evaluated first, then "base = zero-extend(first
    operand) to pointer width", then the steps. *)
Definition getElementPtrSpec (ce : llvm.ConstantExpr) : result (ref Expr) :=
  op1 <- evalOperand evalConstant ce 0 ;;
  op2 <- evalOperand evalConstant ce 1 ;;
  op3 <- evalOperand evalConstant ce 2 ;;
  a <- cast_ConstantExpr NDEBUG op1 ;;
  r <- gepLoopSpec (gep_type_begin ce) (gep_indices (operands ce))
         (ZExt a getPointerWidth) ;;
  Ret (Some (Constant_ r)).

(** An index operand whose value fits C's [unsigned]. *)
Definition indexFitsUnsigned (c : llvm.Constant) : Prop :=
  match c with
  | ConstantInt bits value => 0 <= getZExtValue bits value < 2 ^ 32
  | _ => True
  end.

(** The steps of a GetElementPtr walk stay within C's [unsigned]: each
    struct index does, and so does the allocation size of each element type
    that an index is multiplied by. *)
Fixpoint gepFitsUnsigned (CurTy : option Type_)
    (indices : list llvm.Constant) : Prop :=
  match indices, CurTy with
  | operand :: rest, Some ty =>
      match asStructType ty, asSequentialType ty with
      | Some _, _ => indexFitsUnsigned operand
      | None, Some elementType => 0 <= getTypeAllocSize elementType < 2 ^ 32
      | None, None => True
      end /\
      gepFitsUnsigned (gep_type_next ty operand) rest
  | _, _ => True
  end.

End SpecWording.

(** ** Inputs of the examples *)
Module Examples.

(** The fold with the recording builders on the packed 64-bit layout. *)
Definition recorded (NDEBUG : bool)
    : llvm.Constant -> result (ref (@Expr Recording.ints Recording.floats)) :=
  @evalConstant Recording.ints Recording.floats PackedLayout.layout NDEBUG.

(** The predicate field of a node that is no comparison. *)
Definition noPredicate : Predicate := BAD_ICMP_PREDICATE.

(** [inttoptr i64 4096] to a pointer to [T]. *)
Definition pointerTo (T : Type_) : llvm.Constant :=
  CExpr I.IntToPtr noPredicate (PointerTy T) [ConstantInt 64 4096].

(** [[4294967296 x i8]], an array of 4 GiB. *)
Definition hugeArray : Type_ := ArrayTy 4294967296 (IntegerTy 8).

(** [getelementptr (P, i64 1)] on a pointer [P] to such an array: the
    address just past it. *)
Definition pastHugeArray : llvm.ConstantExpr :=
  mkConstantExpr I.GetElementPtr noPredicate (PointerTy hugeArray)
    [pointerTo hugeArray; ConstantInt 64 1].

(** [{ i32, i64, [4 x i16] }]. *)
Definition record : Type_ :=
  StructTy [IntegerTy 32; IntegerTy 64; ArrayTy 4 (IntegerTy 16)].

(** [getelementptr (P, i64 2, i32 2, i64 3)] on a pointer [P] to such a
    record: element 3 of field 2 of the third record. *)
Definition fieldElement : llvm.ConstantExpr :=
  mkConstantExpr I.GetElementPtr noPredicate (PointerTy (IntegerTy 16))
    [pointerTo record; ConstantInt 64 2; ConstantInt 32 2; ConstantInt 64 3].

(** [addrspacecast] of a pointer to [i8] into another address space, an
    opcode the switch has no case for. *)
Definition addrSpaceCast : llvm.Constant :=
  CExpr I.AddrSpaceCast noPredicate (PointerTy (IntegerTy 8))
    [pointerTo (IntegerTy 8)].

Definition addrSpaceCastNode : llvm.ConstantExpr :=
  mkConstantExpr I.AddrSpaceCast noPredicate (PointerTy (IntegerTy 8))
    [pointerTo (IntegerTy 8)].

(** [fadd (double 5, sitofp (i32 7 to double))], the first literal given by
    its bit pattern. *)
Definition faddNode : llvm.ConstantExpr :=
  mkConstantExpr I.FAdd noPredicate (FloatingTy 64)
    [ConstantFP 64 0x4014000000000000;
     CExpr I.SIToFP noPredicate (FloatingTy 64) [ConstantInt 32 7]].

End Examples.

(** ** What each case of the switch consults *)

(** The cases that ask the layout for the width of the declared type:
    the casts and conversions to a declared width. *)
Definition readsDeclaredType (o : I.Opcode) : bool :=
  match o with
  | I.Trunc | I.ZExt | I.SExt | I.IntToPtr | I.PtrToInt
  | I.FPTrunc | I.FPExt | I.UIToFP | I.SIToFP | I.FPToUI | I.FPToSI => true
  | _ => false
  end.

(** The table a comparison node switches its predicate on; every other
    opcode has none. *)
Definition predicateInTable (o : I.Opcode) (p : Predicate) : bool :=
  match o with
  | I.ICmp => icmpTable p
  | I.FCmp => fcmpTable p
  | _ => true
  end.

(** The operand references that are read through, by a case of the switch
    or by the builder method it hands them to: one by the casts to a
    declared width, the conversions, GetElementPtr and Select, two by the
    binary operations and the comparisons; none by BitCast, which hands the
    reference of its operand back as it is (line 82), and none by the
    [default] case. *)
Definition operandsFollowed (o : I.Opcode) : nat :=
  match o with
  | I.Trunc | I.ZExt | I.SExt | I.IntToPtr | I.PtrToInt
  | I.GetElementPtr | I.Select
  | I.FPTrunc | I.FPExt | I.UIToFP | I.SIToFP | I.FPToUI | I.FPToSI => 1
  | I.Add | I.Sub | I.Mul | I.SDiv | I.UDiv | I.SRem | I.URem
  | I.And | I.Or | I.Xor | I.Shl | I.LShr | I.AShr
  | I.ICmp | I.FAdd | I.FSub | I.FMul | I.FDiv | I.FRem | I.FCmp => 2
  | _ => 0
  end.

(** The two kinds of expression the evaluator returns. *)
Inductive Kind : Type := IntegerKind | FloatKind.

Definition kindOf `{FB : FloatBuilder} (e : Expr) : Kind :=
  match e with
  | Constant_ _ => IntegerKind
  | FConstant _ => FloatKind
  end.

(** The kind of the [return] expression of each case: an [FConstantExpr]
    from the floating-point arithmetic, the format changes and the
    conversions from integers, a [ConstantExpr] from every other case. *)
Definition resultKind (o : I.Opcode) : Kind :=
  match o with
  | I.FAdd | I.FSub | I.FMul | I.FDiv | I.FRem
  | I.FPTrunc | I.FPExt | I.UIToFP | I.SIToFP => FloatKind
  | _ => IntegerKind
  end.

(** The type the iterator of the GetElementPtr loop stands at after the
    operands [indices], from [CurTy]. *)
Definition gepTypeAfter (CurTy : option Type_) (indices : list llvm.Constant)
    : option Type_ :=
  fold_left
    (fun ty operand =>
       match ty with
       | Some t => gep_type_next t operand
       | None => None
       end)
    indices CurTy.

(** The layout as the GetElementPtr loop sees it: an allocation size after
    its conversion to [unsigned] (line 109), a field offset at the index
    after its conversion to [unsigned] (line 102). *)
Definition truncatedLayout (TL : TargetLayout) : TargetLayout := {|
  getPointerWidth := getPointerWidth;
  getWidthForLLVMType := getWidthForLLVMType;
  getTypeAllocSize t := to_unsigned (getTypeAllocSize t);
  getElementOffset st index := getElementOffset st (to_unsigned index)
|}.

(** What a failed assertion of [llvm::cast] leaves on the error stream. *)
Definition castAssertion (d : list Diag) : Prop :=
  d = [AssertionFailed "isa<> used on a null pointer"] \/
  d = [AssertionFailed "cast<Ty>() argument of incompatible type!"].

(** The ways in which the call itself ends the process with output on the
    error stream: the [default] case of the opcodes and, with assertions,
    the [default] label of a predicate switch and a failed [llvm::cast]. *)
Definition abortsByItself (NDEBUG : bool) (ce : llvm.ConstantExpr)
    (d : list Diag) : Prop :=
  (supportedOpcode (getOpcode ce) = false /\
   d = [ Dump ce;
         ErrsText ("error: unknown ConstantExpr type" ++ newline);
         ErrsText "opcode: ";
         ErrsOpcode (getOpcode ce);
         ErrsText newline ]) \/
  (NDEBUG = false /\
   predicateInTable (getOpcode ce) (getPredicate ce) = false /\
   ((getOpcode ce = I.ICmp /\
     d = [AssertionFailed "unhandled ICmp predicate"]) \/
    (getOpcode ce = I.FCmp /\
     d = [AssertionFailed "unhandled FCmp predicate"]))) \/
  (NDEBUG = false /\ supportedOpcode (getOpcode ce) = true /\
   castAssertion d).

(** ** Constants the casts of the evaluator accept *)

Definition Kind_eqb (k1 k2 : Kind) : bool :=
  match k1, k2 with
  | IntegerKind, IntegerKind | FloatKind, FloatKind => true
  | _, _ => false
  end.

(** The class each case of the switch casts its operands to, for the cases
    that cast every operand they have: [cast<ConstantExpr>] or
    [cast<FConstantExpr>] on one operand or on two. *)
Definition operandKinds (o : I.Opcode) : option (list Kind) :=
  match o with
  | I.Trunc | I.ZExt | I.SExt | I.BitCast | I.IntToPtr | I.PtrToInt
  | I.UIToFP | I.SIToFP => Some [IntegerKind]
  | I.Add | I.Sub | I.Mul | I.SDiv | I.UDiv | I.SRem | I.URem
  | I.And | I.Or | I.Xor | I.Shl | I.LShr | I.AShr
  | I.ICmp => Some [IntegerKind; IntegerKind]
  | I.FAdd | I.FSub | I.FMul | I.FDiv | I.FRem
  | I.FCmp => Some [FloatKind; FloatKind]
  | I.FPTrunc | I.FPExt | I.FPToUI | I.FPToSI => Some [FloatKind]
  | _ => None
  end.

(** The operands are as many as [expected], and of these kinds. *)
Fixpoint kindsAre (ks : list (option Kind)) (expected : list Kind) : bool :=
  match ks, expected with
  | [], [] => true
  | Some k :: ks, k' :: expected => Kind_eqb k k' && kindsAre ks expected
  | _, _ => false
  end.

(** [i1], the type of the condition of a select. *)
Definition isBool (t : Type_) : bool :=
  match t with
  | IntegerTy 1 => true
  | _ => false
  end.

(** A path of index operands (each with the kind of what it folds to) that
    the GetElementPtr loop can walk from the type [ty]: a struct is indexed
    by an integer literal, a pointer, array or vector by an operand that
    folds to an integer, and every index selects a member type. *)
Fixpoint gepPathChecks (ty : Type_)
    (indices : list (llvm.Constant * option Kind)) : bool :=
  match indices with
  | [] => true
  | (operand, k) :: rest =>
      match gep_type_next ty operand with
      | Some next =>
          match asStructType ty with
          | Some _ =>
              match operand with
              | ConstantInt _ _ => true
              | _ => false
              end
          | None =>
              match asSequentialType ty, k with
              | Some _, Some IntegerKind => true
              | _, _ => false
              end
          end && gepPathChecks next rest
      | None => false
      end
  end.

(** The kind a node folds to when its operands are of the kinds [ks], if
    the node is one the evaluator folds without a failed cast, a null
    reference, an unhandled predicate or an unknown opcode: the operands are
    as many as the case reads and of the class it casts them to, the
    predicate of a comparison is in its table, the condition of a select is
    an [i1] and its two values are of one kind, the indices of a
    GetElementPtr are a path from the type of its pointer operand. *)
Definition nodeKind (o : I.Opcode) (p : Predicate) (ops : list llvm.Constant)
    (ks : list (option Kind)) : option Kind :=
  match o with
  | I.Select =>
      match ops, ks with
      | cond :: _, [Some IntegerKind; Some k2; Some k3] =>
          if isBool (typeOf cond) && Kind_eqb k2 k3 then Some k2 else None
      | _, _ => None
      end
  | I.GetElementPtr =>
      match ops, ks with
      | base :: indices, Some IntegerKind :: iks =>
          if gepPathChecks (typeOf base) (combine indices iks)
          then Some IntegerKind else None
      | _, _ => None
      end
  | _ =>
      match operandKinds o with
      | Some expected =>
          if kindsAre ks expected && predicateInTable o p
          then Some (resultKind o) else None
      | None => None
      end
  end.

(** The kind a constant folds to, if all its nodes are such nodes. *)
Fixpoint kindCheck (c : llvm.Constant) : option Kind :=
  match c with
  | ConstantInt _ _ => Some IntegerKind
  | ConstantFP _ _ => Some FloatKind
  | CExpr o p _ ops => nodeKind o p ops (map kindCheck ops)
  end.

(** The evaluator [ev] returns, on the constant [c], an expression of the
    kind the check computes. *)
Definition returnsItsKind {IB : IntBuilder} {FB : FloatBuilder IB}
    (ev : llvm.Constant -> result (ref Expr)) (c : llvm.Constant) : Prop :=
  forall k, kindCheck c = Some k ->
    exists e, ev c = Ret (Some e) /\ kindOf e = k.

(** ** More inputs of the examples *)
Module MoreExamples.

Import Examples.

(** An evaluator that differs from the recorded fold on one constant only,
    where it aborts. *)
Definition poisoned : llvm.Constant := ConstantInt 8 0xAA.

Definition recordedBut (NDEBUG : bool) (c : llvm.Constant)
    : result (ref (@Expr Recording.ints Recording.floats)) :=
  match c with
  | ConstantInt 8 0xAA => Abort [AssertionFailed "poisoned"]
  | _ => recorded NDEBUG c
  end.

(** [trunc (i64 0x1234 to i8)] with the operands [extra] appended. *)
Definition truncNode (extra : list llvm.Constant) : llvm.ConstantExpr :=
  mkConstantExpr I.Trunc noPredicate (IntegerTy 8)
    (ConstantInt 64 0x1234 :: extra).

(** [add (i8 250, i8 10)] declared at another type. *)
Definition addNode (ty : Type_) (p : Predicate) : llvm.ConstantExpr :=
  mkConstantExpr I.Add p ty [ConstantInt 8 250; ConstantInt 8 10].

(** [icmp ult (i8 1, add (i8 250, i8 10))]. *)
Definition compareSum : llvm.Constant :=
  CExpr I.ICmp ICMP_ULT (IntegerTy 1)
    [ConstantInt 8 1;
     CExpr I.Add noPredicate (IntegerTy 8) [ConstantInt 8 250; ConstantInt 8 10]].

(** [select (icmp ult (i8 1, add (i8 250, i8 10)), G, inttoptr i64 4096)]
    with [G] the GetElementPtr into the record. *)
Definition chosenField : llvm.Constant :=
  CExpr I.Select noPredicate (PointerTy (IntegerTy 16))
    [ compareSum;
      CExpr (getOpcode fieldElement) (getPredicate fieldElement)
        (getType fieldElement) (operands fieldElement);
      pointerTo (IntegerTy 16) ].

(** A layout that agrees with the packed one on the widths of the types
    and on nothing else. *)
Definition layout32 : TargetLayout := {|
  getPointerWidth := 32;
  getWidthForLLVMType := PackedLayout.widthOf;
  getTypeAllocSize := fun _ => 1;
  getElementOffset := fun _ _ => 0
|}.

End MoreExamples.

(** ** Facts about the result monad and the operand fetch *)

Lemma bind_Ret_inv {A B : Type} (m : result A) (k : A -> result B) (b : B) :
  bind m k = Ret b -> exists a, m = Ret a /\ k a = Ret b.
Proof.
  destruct m as [a | d | ]; simpl; intros H; try discriminate.
  exists a; split; [reflexivity | exact H].
Qed.

Section OperandFacts.

Context {IB : IntBuilder} {FB : FloatBuilder IB}.
Variable ev : llvm.Constant -> result (ref Expr).

(** The operand fetch is the guarded call of lines 54-56: operand [i] is
    evaluated when there is one, and the reference stays null otherwise. *)
Lemma evalOperand_nth_error (ce : llvm.ConstantExpr) (i : nat) :
  evalOperand ev ce i =
  match nth_error (operands ce) i with
  | Some c => ev c
  | None => Ret null
  end.
Proof.
  unfold evalOperand. generalize (operands ce) as ops.
  induction i as [| i IH]; intros [| c ops]; simpl; auto.
Qed.

Lemma evalOperand_in (ce : llvm.ConstantExpr) (i : nat) (P : result (ref Expr) -> Prop) :
  P (Ret null) ->
  Forall (fun c => P (ev c)) (operands ce) ->
  P (evalOperand ev ce i).
Proof.
  intros Hnull Hall. rewrite evalOperand_nth_error.
  destruct (nth_error (operands ce) i) as [c |] eqn:E; [| exact Hnull].
  apply nth_error_In in E. rewrite Forall_forall in Hall. auto.
Qed.

End OperandFacts.

(** The fold of a constant expression is [evalConstantExpr] on its node,
    with the fold itself for the operands. *)
Lemma evalConstant_CExpr {IB : IntBuilder} {FB : FloatBuilder IB}
    {TL : TargetLayout} (NDEBUG : bool) (o : I.Opcode) (p : Predicate)
    (ty : Type_) (ops : list llvm.Constant) :
  evalConstant NDEBUG (CExpr o p ty ops)
    = fold NDEBUG (mkConstantExpr o p ty ops).
Proof. reflexivity. Qed.

(** ** The cases of the switch *)

Section Switch.

Context {IB : IntBuilder} {FB : FloatBuilder IB} {TL : TargetLayout}.
Variable NDEBUG : bool.
Variable ev : llvm.Constant -> result (ref Expr).

Lemma dispatch_unsupported (ce : llvm.ConstantExpr) (op1 op2 op3 : ref Expr) :
  supportedOpcode (getOpcode ce) = false ->
  dispatch NDEBUG ev ce op1 op2 op3 = Abort (unknownConstantExpr ce).
Proof.
  unfold dispatch, unknownConstantExpr.
  destruct (getOpcode ce); simpl; intros H; try discriminate H; reflexivity.
Qed.

(** C2. A node whose opcode is none of those the switch names never makes
    [evalConstantExpr] return a value. The call is the evaluation of the
    first three operands followed by the [default] case: when these
    evaluations return, the dump of the node, the line
    "error: unknown ConstantExpr type" and "opcode: " with the opcode go to
    the error stream and the call ends in [abort()]; when one of them ends
    the process, the call ends there, with the output of that evaluation
    and without the diagnostic of the node. *)
Theorem unsupported_opcode_aborts_after_its_operands (ce : llvm.ConstantExpr) :
  supportedOpcode (getOpcode ce) = false ->
  (forall v, evalConstantExpr NDEBUG ev ce <> Ret v) /\
  evalConstantExpr NDEBUG ev ce =
    (op1 <- evalOperand ev ce 0 ;;
     op2 <- evalOperand ev ce 1 ;;
     op3 <- evalOperand ev ce 2 ;;
     Abort [ Dump ce;
             ErrsText ("error: unknown ConstantExpr type" ++ newline);
             ErrsText "opcode: ";
             ErrsOpcode (getOpcode ce);
             ErrsText newline ]).
Proof.
  intros Hop. unfold evalConstantExpr. split.
  - intros v H.
    apply bind_Ret_inv in H as (op1 & _ & H).
    apply bind_Ret_inv in H as (op2 & _ & H).
    apply bind_Ret_inv in H as (op3 & _ & H).
    rewrite dispatch_unsupported in H by exact Hop. discriminate H.
  - destruct (evalOperand ev ce 0) as [op1 | |]; simpl; [| reflexivity ..].
    destruct (evalOperand ev ce 1) as [op2 | |]; simpl; [| reflexivity ..].
    destruct (evalOperand ev ce 2) as [op3 | |]; simpl; [| reflexivity ..].
    apply dispatch_unsupported, Hop.
Qed.

(** With assertions compiled in, a predicate outside the table of its
    switch stops at the assertion of the [default] label, whatever the
    operands are. *)
Lemma unhandled_predicate_asserts (p : Predicate) (op1 op2 : ref Expr) :
  NDEBUG = false ->
  (icmpTable p = false ->
   evalICmp NDEBUG p op1 op2 = Abort [AssertionFailed "unhandled ICmp predicate"]) /\
  (fcmpTable p = false ->
   evalFCmp NDEBUG p op1 op2 = Abort [AssertionFailed "unhandled FCmp predicate"]).
Proof.
  intros ->. split; destruct p; simpl; intros H; try discriminate H; reflexivity.
Qed.

(** C4. A Select node evaluates its three operands, in order, before it
    looks at the condition, and returns the second when the first is the
    true constant and the third otherwise: a third operand that aborts ends
    the call although the condition is true, and so does a second one
    although the condition is false. *)
Theorem select_folds_all_operands (p : Predicate) (ty : Type_)
    (c a b : llvm.Constant) (rest : list llvm.Constant) :
  let ce := mkConstantExpr I.Select p ty (c :: a :: b :: rest) in
  (evalConstantExpr NDEBUG ev ce =
     (op1 <- ev c ;; op2 <- ev a ;; op3 <- ev b ;;
      cond <- deref op1 ;;
      Ret (if Expr_isTrue cond then op2 else op3))) /\
  (forall cond op2 op3,
      ev c = Ret (Some cond) -> ev a = Ret op2 -> ev b = Ret op3 ->
      evalConstantExpr NDEBUG ev ce =
        Ret (if Expr_isTrue cond then op2 else op3)) /\
  (forall cond op2 d,
      ev c = Ret (Some cond) -> ev a = Ret op2 -> ev b = Abort d ->
      evalConstantExpr NDEBUG ev ce = Abort d) /\
  (forall cond d,
      ev c = Ret (Some cond) -> ev a = Abort d ->
      evalConstantExpr NDEBUG ev ce = Abort d).
Proof.
  intros ce.
  assert (Heq : evalConstantExpr NDEBUG ev ce =
     (op1 <- ev c ;; op2 <- ev a ;; op3 <- ev b ;;
      cond <- deref op1 ;;
      Ret (if Expr_isTrue cond then op2 else op3))) by reflexivity.
  split; [exact Heq |].
  repeat split.
  - intros cond op2 op3 Hc Ha Hb. rewrite Heq, Hc, Ha, Hb. reflexivity.
  - intros cond op2 d Hc Ha Hb. rewrite Heq, Hc, Ha, Hb. reflexivity.
  - intros cond d Hc Ha. rewrite Heq, Hc, Ha. reflexivity.
Qed.

(** C9. An IntToPtr node and a PtrToInt node both return the builder's
    zero-extension of the operand to the width of the declared type,
    whatever that width is; on any operands, a PtrToInt node is evaluated
    exactly as a ZExt node, the call being [ZExt] and never [Extract]. *)
Theorem pointer_casts_zero_extend (p : Predicate) (ty : Type_)
    (c : llvm.Constant) (a : ConstantExpr) :
  ev c = Ret (Some (Constant_ a)) ->
  evalConstantExpr NDEBUG ev (mkConstantExpr I.IntToPtr p ty [c]) =
    Ret (Some (Constant_ (ZExt a (getWidthForLLVMType ty)))) /\
  evalConstantExpr NDEBUG ev (mkConstantExpr I.PtrToInt p ty [c]) =
    Ret (Some (Constant_ (ZExt a (getWidthForLLVMType ty)))) /\
  (forall ops,
      evalConstantExpr NDEBUG ev (mkConstantExpr I.PtrToInt p ty ops) =
      evalConstantExpr NDEBUG ev (mkConstantExpr I.ZExt p ty ops)).
Proof.
  intros Hc. repeat split.
  - unfold evalConstantExpr, evalOperand. simpl. rewrite Hc. reflexivity.
  - unfold evalConstantExpr, evalOperand. simpl. rewrite Hc. reflexivity.
Qed.

(** C10. An FPTrunc node and an FPExt node with the same operands and the
    same declared type have the same outcome, whatever the operands: one
    call of [FExt] at the width of the declared type, rounding to nearest,
    ties to even. *)
Theorem fptrunc_is_fpext (p1 p2 : Predicate) (ty : Type_)
    (ops : list llvm.Constant) :
  evalConstantExpr NDEBUG ev (mkConstantExpr I.FPTrunc p1 ty ops) =
  evalConstantExpr NDEBUG ev (mkConstantExpr I.FPExt p2 ty ops) /\
  (forall c f,
      ops = [c] -> ev c = Ret (Some (FConstant f)) ->
      evalConstantExpr NDEBUG ev (mkConstantExpr I.FPTrunc p1 ty ops) =
        Ret (Some (FConstant
          (FExt f (getWidthForLLVMType ty) rmNearestTiesToEven)))).
Proof.
  split; [reflexivity |].
  intros c f -> Hc.
  unfold evalConstantExpr, evalOperand. simpl. rewrite Hc. reflexivity.
Qed.

End Switch.

Section AssertingBuild.

Context {IB : IntBuilder} {FB : FloatBuilder IB} {TL : TargetLayout}.
Variable ev : llvm.Constant -> result (ref Expr).

(** In a build with assertions, a comparison node whose predicate is
    outside the table of its switch never makes [evalConstantExpr] return a
    value; once its operands are evaluated the call stops at the assertion
    of the [default] label, with the failed assertion on the error stream. *)
Lemma unhandled_predicate_stops_at_assertion (p : Predicate) (ty : Type_)
    (ops : list llvm.Constant) :
  let icmp := mkConstantExpr I.ICmp p ty ops in
  let fcmp := mkConstantExpr I.FCmp p ty ops in
  (icmpTable p = false ->
   (forall v, evalConstantExpr false ev icmp <> Ret v) /\
   (forall op1 op2 op3,
       evalOperand ev icmp 0 = Ret op1 ->
       evalOperand ev icmp 1 = Ret op2 ->
       evalOperand ev icmp 2 = Ret op3 ->
       evalConstantExpr false ev icmp
         = Abort [AssertionFailed "unhandled ICmp predicate"])) /\
  (fcmpTable p = false ->
   (forall v, evalConstantExpr false ev fcmp <> Ret v) /\
   (forall op1 op2 op3,
       evalOperand ev fcmp 0 = Ret op1 ->
       evalOperand ev fcmp 1 = Ret op2 ->
       evalOperand ev fcmp 2 = Ret op3 ->
       evalConstantExpr false ev fcmp
         = Abort [AssertionFailed "unhandled FCmp predicate"])).
Proof.
  intros icmp fcmp. split; intros Hp.
  - assert (Hd : forall op1 op2 op3,
               dispatch false ev icmp op1 op2 op3
                 = Abort [AssertionFailed "unhandled ICmp predicate"]).
    { intros op1 op2 op3.
      apply (unhandled_predicate_asserts false p op1 op2 eq_refl), Hp. }
    unfold evalConstantExpr. split.
    + intros v H.
      apply bind_Ret_inv in H as (op1 & _ & H).
      apply bind_Ret_inv in H as (op2 & _ & H).
      apply bind_Ret_inv in H as (op3 & _ & H).
      rewrite Hd in H. discriminate H.
    + intros op1 op2 op3 -> -> ->. simpl. apply Hd.
  - assert (Hd : forall op1 op2 op3,
               dispatch false ev fcmp op1 op2 op3
                 = Abort [AssertionFailed "unhandled FCmp predicate"]).
    { intros op1 op2 op3.
      apply (unhandled_predicate_asserts false p op1 op2 eq_refl), Hp. }
    unfold evalConstantExpr. split.
    + intros v H.
      apply bind_Ret_inv in H as (op1 & _ & H).
      apply bind_Ret_inv in H as (op2 & _ & H).
      apply bind_Ret_inv in H as (op3 & _ & H).
      rewrite Hd in H. discriminate H.
    + intros op1 op2 op3 -> -> ->. simpl. apply Hd.
Qed.

End AssertingBuild.

Section ReleaseBuild.

Context {IB : IntBuilder} {FB : FloatBuilder IB} {TL : TargetLayout}.
Variable ev : llvm.Constant -> result (ref Expr).

(** With [NDEBUG] defined the assertion of the [default] label is gone: a
    predicate outside the table is evaluated as the first case of its
    switch, [ICMP_EQ] for an ICmp node and [FCMP_OEQ] for an FCmp node. *)
Lemma unhandled_predicate_falls_through (p : Predicate) (ty : Type_)
    (ops : list llvm.Constant) :
  (icmpTable p = false ->
   evalConstantExpr true ev (mkConstantExpr I.ICmp p ty ops) =
   evalConstantExpr true ev (mkConstantExpr I.ICmp ICMP_EQ ty ops)) /\
  (fcmpTable p = false ->
   evalConstantExpr true ev (mkConstantExpr I.FCmp p ty ops) =
   evalConstantExpr true ev (mkConstantExpr I.FCmp FCMP_OEQ ty ops)).
Proof.
  split; destruct p; simpl; intros H; try discriminate H; reflexivity.
Qed.

End ReleaseBuild.

(** ** Rounding modes *)

Section Rounding.

Context {IB : IntBuilder} {FB : FloatBuilder IB} {TL : TargetLayout}.
Variable NDEBUG : bool.
Variable ev : llvm.Constant -> result (ref Expr).

(** Each rounding opcode makes the call the specification names for it,
    with [rmNearestTiesToEven] as the rounding mode. *)
Lemma dispatch_floatOperation (ce : llvm.ConstantExpr) (op1 op2 op3 : ref Expr)
    (call : result (ref Expr)) :
  floatOperation NDEBUG rmNearestTiesToEven (getOpcode ce)
    (getWidthForLLVMType (getType ce)) op1 op2 = Some call ->
  dispatch NDEBUG ev ce op1 op2 op3 = call.
Proof.
  unfold dispatch, floatOperation.
  destruct (getOpcode ce); intros H; try discriminate H;
    injection H as <-; reflexivity.
Qed.

End Rounding.

Section RecordedRounding.

Import Recording.
Context {TL : TargetLayout}.
Variable NDEBUG : bool.

#[local] Existing Instance Recording.ints.
#[local] Existing Instance Recording.floats.

Variable ev : llvm.Constant -> result (ref Expr).

Ltac nearest_even :=
  repeat match goal with
  | r : ref Expr |- _ => destruct r as [[? | ?] |]
  end;
  cbn in *; unfold nearestEvenOnly in *; cbn;
  repeat (apply Forall_app; split); auto.

Lemma gepLoop_nearestEven (indices : list llvm.Constant) :
  Forall (fun c => nearestEvenResult (ev c)) indices ->
  forall CurTy base,
    nearestEvenOnly base ->
    match gepLoop NDEBUG ev CurTy indices base with
    | Ret r => nearestEvenOnly r
    | _ => True
    end.
Proof.
  intros Hall.
  destruct NDEBUG;
    (induction Hall as [| c rest Hc Hrest IH]; intros CurTy base Hbase; cbn;
     [exact Hbase |];
     destruct CurTy as [ty |]; cbn; [| exact I];
     unfold gepAddend, cast_SequentialType;
     destruct (asStructType ty) as [st |];
     [ destruct c; cbn; try exact I; apply IH; nearest_even
     | destruct (asSequentialType ty) as [elementType |]; cbn; try exact I;
       destruct (ev c) as [e | d |]; cbn; try exact I;
       destruct e as [[index | f] |]; cbn; try exact I;
       apply IH; nearest_even ]).
Qed.

Lemma dispatch_nearestEven (ce : llvm.ConstantExpr) (op1 op2 op3 : ref Expr) :
  Forall (fun c => nearestEvenResult (ev c)) (operands ce) ->
  nearestEvenRef op1 -> nearestEvenRef op2 -> nearestEvenRef op3 ->
  nearestEvenResult (dispatch NDEBUG ev ce op1 op2 op3).
Proof.
  intros Hops H1 H2 H3. unfold dispatch.
  destruct (getOpcode ce);
    try (unfold int1, int2, float2, fcmp2, cast_ConstantExpr_only;
         destruct NDEBUG; nearest_even; fail).
  - (* GetElementPtr *)
    destruct op1 as [[a | f] |]; cbn; try (destruct NDEBUG; exact I).
    pose proof (gepLoop_nearestEven (gep_indices (operands ce))) as Hloop.
    assert (Hidx : Forall (fun c => nearestEvenResult (ev c))
                     (gep_indices (operands ce))).
    { destruct (operands ce); cbn; [constructor | inversion Hops; assumption]. }
    specialize (Hloop Hidx (gep_type_begin ce) (Resize "ZExt" a 0 getPointerWidth)).
    destruct (gepLoop NDEBUG ev (gep_type_begin ce) (gep_indices (operands ce))
                (Resize "ZExt" a 0 getPointerWidth)); cbn; auto.
  - (* ICmp *)
    unfold evalICmp, assert_false, int2.
    destruct (getPredicate ce), NDEBUG; nearest_even.
  - (* Select *)
    destruct op1 as [c |]; cbn; [| exact I].
    destruct (Expr_isTrue c); assumption.
  - (* FCmp *)
    unfold evalFCmp, assert_false, fcmp2.
    destruct (getPredicate ce), NDEBUG; nearest_even.
Qed.

Lemma evalConstantExpr_nearestEven (ce : llvm.ConstantExpr) :
  Forall (fun c => nearestEvenResult (ev c)) (operands ce) ->
  nearestEvenResult (evalConstantExpr NDEBUG ev ce).
Proof.
  intros Hops. unfold evalConstantExpr.
  pose proof (evalOperand_in ev ce 0 nearestEvenResult I Hops) as H1.
  pose proof (evalOperand_in ev ce 1 nearestEvenResult I Hops) as H2.
  pose proof (evalOperand_in ev ce 2 nearestEvenResult I Hops) as H3.
  destruct (evalOperand ev ce 0) as [op1 | |]; cbn; try exact I.
  destruct (evalOperand ev ce 1) as [op2 | |]; cbn; try exact I.
  destruct (evalOperand ev ce 2) as [op3 | |]; cbn; try exact I.
  apply dispatch_nearestEven; assumption.
Qed.

End RecordedRounding.

Lemma evalConstant_nearestEven (TL : TargetLayout) (NDEBUG : bool)
    (c : llvm.Constant) :
  Recording.nearestEvenResult
    (@evalConstant Recording.ints Recording.floats TL NDEBUG c).
Proof.
  induction c as [bits value | bits pattern | o p ty ops IH]
    using Constant_nested_ind.
  - constructor.
  - constructor.
  - cbn [evalConstant]. apply evalConstantExpr_nearestEven. exact IH.
Qed.

(** C8. Each of the eleven rounding opcodes makes the call of the Float
    Expression Builder that the specification names for it with
    [rmNearestTiesToEven] as its rounding-mode argument, whatever the
    builders are; and in the tree of calls the recording builders keep of
    the fold of any constant, every rounding operation carries that mode. *)
Theorem float_operations_round_to_nearest_even :
  (forall (IB : IntBuilder) (FB : FloatBuilder IB) (TL : TargetLayout)
          (NDEBUG : bool) (ev : llvm.Constant -> result (ref Expr))
          (ce : llvm.ConstantExpr) (op1 op2 op3 : ref Expr)
          (call : result (ref Expr)),
      floatOperation NDEBUG rmNearestTiesToEven (getOpcode ce)
        (getWidthForLLVMType (getType ce)) op1 op2 = Some call ->
      dispatch NDEBUG ev ce op1 op2 op3 = call) /\
  (forall (TL : TargetLayout) (NDEBUG : bool) (c : llvm.Constant) e,
      @evalConstant Recording.ints Recording.floats TL NDEBUG c = Ret (Some e) ->
      Forall (eq rmNearestTiesToEven)
        (Recording.roundingModes (Recording.nodeOf e))).
Proof.
  split.
  - intros. eapply dispatch_floatOperation; eassumption.
  - intros TL NDEBUG c e H.
    pose proof (evalConstant_nearestEven TL NDEBUG c) as Hc.
    rewrite H in Hc. exact Hc.
Qed.

(** ** Bit vectors: the bits of extraction and extension *)

Module BitVectorFacts.

Import BitVector.

Lemma alloc_wellFormed (v : Z) (w : Width) : 0 <= w -> wellFormed (alloc v w).
Proof.
  intros Hw. unfold wellFormed, alloc; simpl.
  apply Z.mod_pos_bound. apply Z.pow_pos_nonneg; lia.
Qed.

Lemma testbit_above (v n i : Z) :
  0 <= v < 2 ^ n -> 0 <= n <= i -> Z.testbit v i = false.
Proof.
  intros Hv Hi. rewrite <- (Z.mod_small v (2 ^ n)) by exact Hv.
  apply Z.mod_pow2_bits_high. exact Hi.
Qed.

Lemma testbit_negative_above (x n i : Z) :
  - 2 ^ n <= x < 0 -> 0 <= n <= i -> Z.testbit x i = true.
Proof.
  intros Hx Hi.
  assert (Hpow : 2 ^ n <= 2 ^ i) by (apply Z.pow_le_mono_r; lia).
  assert (Hdiv : x / 2 ^ i = -1).
  { symmetry. apply Z.div_unique with (r := x + 2 ^ i); lia. }
  pose proof (Z.testbit_spec' x i ltac:(lia)) as Hb.
  rewrite Hdiv in Hb. change ((-1) mod 2) with 1 in Hb.
  destruct (Z.testbit x i); [reflexivity | discriminate Hb].
Qed.

Lemma Extract_bits (c : bv) (w i : Z) :
  0 <= i < w ->
  Z.testbit (value (Extract c 0 w)) i = Z.testbit (value c) i.
Proof.
  intros Hi. unfold Extract, alloc; simpl.
  rewrite Z.shiftr_0_r. apply Z.mod_pow2_bits_low. lia.
Qed.

Lemma ZExt_bits (c : bv) (w i : Z) :
  wellFormed c -> 0 <= i < w ->
  Z.testbit (value (ZExt c w)) i =
  if i <? width c then Z.testbit (value c) i else false.
Proof.
  intros Hc Hi. unfold ZExt, alloc; simpl.
  rewrite Z.mod_pow2_bits_low by lia.
  destruct (Z.ltb_spec i (width c)) as [Hlt | Hge]; [reflexivity |].
  assert (0 <= width c).
  { destruct (Z.neg_nonneg_cases (width c)) as [Hneg | ?]; [| assumption].
    unfold wellFormed in Hc. rewrite Z.pow_neg_r in Hc by exact Hneg. lia. }
  apply testbit_above with (n := width c); [exact Hc | lia].
Qed.

Lemma SExt_bits (c : bv) (w i : Z) :
  0 < width c -> wellFormed c -> 0 <= i < w ->
  Z.testbit (value (SExt c w)) i =
  if i <? width c then Z.testbit (value c) i
  else Z.testbit (value c) (width c - 1).
Proof.
  intros Hn Hc Hi. unfold wellFormed in Hc.
  unfold SExt, alloc, signed; simpl.
  rewrite Z.mod_pow2_bits_low by lia.
  destruct (Z.testbit (value c) (width c - 1)) eqn:Hsign.
  - destruct (Z.ltb_spec i (width c)) as [Hlt | Hge].
    + rewrite <- (Z.mod_pow2_bits_low (value c - 2 ^ width c) (width c) i) by lia.
      replace (value c - 2 ^ width c) with (value c + (-1) * 2 ^ width c) by ring.
      rewrite Z.mod_add by lia.
      apply Z.mod_pow2_bits_low. lia.
    + apply testbit_negative_above with (n := width c); lia.
  - destruct (Z.ltb_spec i (width c)) as [Hlt | Hge]; [reflexivity |].
    apply testbit_above with (n := width c); [exact Hc | lia].
Qed.

End BitVectorFacts.

(** ** Folding over bit vectors *)

Section BitVectorFold.

Variable d : BitVector.Delegated.
Variable FB : FloatBuilder (BitVector.ints d).
Variable NDEBUG : bool.


(** C5. Over bit vectors, Add, Sub and Mul wrap around at the width of
    their operands: at width 8, 250 + 10 is 4, 0 - 1 is 255, 16 * 16 is 0
    and 255 * 255 is 1; at any width, the fold of the operation on two
    literals is the exact result reduced modulo two to the width. *)
Theorem integer_arithmetic_wraps (TL : TargetLayout) (p : Predicate) :
  let fold := @evalConstant (BitVector.ints d) FB TL NDEBUG in
  fold (CExpr I.Add p (IntegerTy 8) [ConstantInt 8 250; ConstantInt 8 10])
    = RetConstant (IB := BitVector.ints d) (BitVector.mk 4 8) /\
  fold (CExpr I.Sub p (IntegerTy 8) [ConstantInt 8 0; ConstantInt 8 1])
    = RetConstant (IB := BitVector.ints d) (BitVector.mk 255 8) /\
  fold (CExpr I.Mul p (IntegerTy 8) [ConstantInt 8 16; ConstantInt 8 16])
    = RetConstant (IB := BitVector.ints d) (BitVector.mk 0 8) /\
  fold (CExpr I.Mul p (IntegerTy 8) [ConstantInt 8 255; ConstantInt 8 255])
    = RetConstant (IB := BitVector.ints d) (BitVector.mk 1 8) /\
  (forall w a b,
      fold (CExpr I.Add p (IntegerTy w) [ConstantInt w a; ConstantInt w b])
        = RetConstant (IB := BitVector.ints d) (BitVector.mk ((a + b) mod 2 ^ w) w)) /\
  (forall w a b,
      fold (CExpr I.Sub p (IntegerTy w) [ConstantInt w a; ConstantInt w b])
        = RetConstant (IB := BitVector.ints d) (BitVector.mk ((a - b) mod 2 ^ w) w)) /\
  (forall w a b,
      fold (CExpr I.Mul p (IntegerTy w) [ConstantInt w a; ConstantInt w b])
        = RetConstant (IB := BitVector.ints d) (BitVector.mk ((a * b) mod 2 ^ w) w)).
Proof.
  intros fold. unfold fold.
  repeat split; try reflexivity; intros w a b; cbn;
    unfold RetConstant, BitVector.Add, BitVector.Sub, BitVector.Mul,
      BitVector.alloc; cbn.
  - rewrite <- Zplus_mod. reflexivity.
  - rewrite <- Zminus_mod. reflexivity.
  - rewrite <- Zmult_mod. reflexivity.
Qed.

(** C7. Over bit vectors, at width 32, the unsigned greater-than of
    0xFFFFFFFF and 0 folds to the one-bit constant 1 and the signed
    greater-than of the same two constants to the one-bit constant 0; at
    any width the two predicates compare the unsigned and the two's
    complement readings of the operands. *)
Theorem icmp_unsigned_and_signed_greater (TL : TargetLayout) (ty : Type_) :
  let fold := @evalConstant (BitVector.ints d) FB TL NDEBUG in
  fold (CExpr I.ICmp ICMP_UGT ty [ConstantInt 32 0xFFFFFFFF; ConstantInt 32 0])
    = RetConstant (IB := BitVector.ints d) (BitVector.mk 1 1) /\
  fold (CExpr I.ICmp ICMP_SGT ty [ConstantInt 32 0xFFFFFFFF; ConstantInt 32 0])
    = RetConstant (IB := BitVector.ints d) (BitVector.mk 0 1) /\
  BitVector.signed (BitVector.alloc 0xFFFFFFFF 32) = -1 /\
  (forall w a b,
      fold (CExpr I.ICmp ICMP_UGT ty [ConstantInt w a; ConstantInt w b])
        = RetConstant (IB := BitVector.ints d) (BitVector.boolean (a mod 2 ^ w >? b mod 2 ^ w))) /\
  (forall w a b,
      fold (CExpr I.ICmp ICMP_SGT ty [ConstantInt w a; ConstantInt w b])
        = RetConstant (IB := BitVector.ints d) (BitVector.boolean
            (BitVector.signed (BitVector.alloc a w) >?
             BitVector.signed (BitVector.alloc b w)))).
Proof.
  intros fold. unfold fold. repeat split; reflexivity.
Qed.

End BitVectorFold.

(** C6. Over bit vectors on the packed layout, Trunc of the 16-bit 0x1234
    to width 8 folds to 0x34, ZExt of the 8-bit 0xFF to width 16 to 0x00FF
    and SExt of the same to 0xFFFF; a Trunc node folds to the extraction
    from bit 0 at the declared width and ZExt and SExt nodes to the
    extensions to that width; bit by bit, the extraction keeps the low bits
    of its operand, and the extensions keep the bits of the operand and fill
    the bits above them with zeros and with the sign bit. *)
Theorem width_changes_extract_and_extend :
  (forall (d : BitVector.Delegated) (FB : FloatBuilder (BitVector.ints d))
          (NDEBUG : bool) (p : Predicate),
      let fold :=
        @evalConstant (BitVector.ints d) FB PackedLayout.layout NDEBUG in
      fold (CExpr I.Trunc p (IntegerTy 8) [ConstantInt 16 0x1234])
        = RetConstant (IB := BitVector.ints d) (BitVector.mk 0x34 8) /\
      fold (CExpr I.ZExt p (IntegerTy 16) [ConstantInt 8 0xFF])
        = RetConstant (IB := BitVector.ints d) (BitVector.mk 0x00FF 16) /\
      fold (CExpr I.SExt p (IntegerTy 16) [ConstantInt 8 0xFF])
        = RetConstant (IB := BitVector.ints d) (BitVector.mk 0xFFFF 16) /\
      (forall n v w,
          fold (CExpr I.Trunc p (IntegerTy w) [ConstantInt n v])
            = RetConstant (IB := BitVector.ints d)
                (BitVector.Extract (BitVector.alloc v n) 0 w)) /\
      (forall n v w,
          fold (CExpr I.ZExt p (IntegerTy w) [ConstantInt n v])
            = RetConstant (IB := BitVector.ints d)
                (BitVector.ZExt (BitVector.alloc v n) w)) /\
      (forall n v w,
          fold (CExpr I.SExt p (IntegerTy w) [ConstantInt n v])
            = RetConstant (IB := BitVector.ints d)
                (BitVector.SExt (BitVector.alloc v n) w))) /\
  (forall c w i,
      0 <= i < w ->
      Z.testbit (BitVector.value (BitVector.Extract c 0 w)) i
        = Z.testbit (BitVector.value c) i) /\
  (forall c w i,
      BitVector.wellFormed c -> 0 <= i < w ->
      Z.testbit (BitVector.value (BitVector.ZExt c w)) i
        = if i <? BitVector.width c then Z.testbit (BitVector.value c) i
          else false) /\
  (forall c w i,
      0 < BitVector.width c -> BitVector.wellFormed c -> 0 <= i < w ->
      Z.testbit (BitVector.value (BitVector.SExt c w)) i
        = if i <? BitVector.width c then Z.testbit (BitVector.value c) i
          else Z.testbit (BitVector.value c) (BitVector.width c - 1)).
Proof.
  split; [| split; [| split]].
  - intros d FB NDEBUG p fold. unfold fold. repeat split; reflexivity.
  - exact BitVectorFacts.Extract_bits.
  - exact BitVectorFacts.ZExt_bits.
  - exact BitVectorFacts.SExt_bits.
Qed.

(** ** GetElementPtr *)

Lemma to_unsigned_small (v : Z) : 0 <= v < 2 ^ 32 -> to_unsigned v = v.
Proof. intros H. unfold to_unsigned. apply Z.mod_small, H. Qed.

Section GetElementPtr.

Context {IB : IntBuilder} {FB : FloatBuilder IB} {TL : TargetLayout}.
Variable NDEBUG : bool.
Variable ev : llvm.Constant -> result (ref Expr).

Lemma gepLoop_spec (indices : list llvm.Constant) :
  forall CurTy base,
    gepFitsUnsigned CurTy indices ->
    gepLoop NDEBUG ev CurTy indices base = gepLoopSpec NDEBUG ev CurTy indices base.
Proof.
  induction indices as [| operand rest IH]; intros CurTy base Hfit; simpl.
  - reflexivity.
  - destruct CurTy as [ty |]; simpl in *; [| destruct NDEBUG; reflexivity].
    destruct Hfit as [Hstep Hrest].
    assert (Haddend : gepAddend NDEBUG ev ty operand = gepAddendSpec NDEBUG ev ty operand).
    { unfold gepAddend, gepAddendSpec, cast_SequentialType.
      destruct (asStructType ty) as [st |].
      - destruct operand; simpl in *; try (destruct NDEBUG; reflexivity).
        rewrite to_unsigned_small by exact Hstep. reflexivity.
      - destruct (asSequentialType ty) as [elementType |]; simpl.
        + destruct (ev operand) as [e | |]; simpl; try reflexivity.
          destruct (cast_ConstantExpr NDEBUG e); simpl; try reflexivity.
          rewrite to_unsigned_small by exact Hstep. reflexivity.
        + destruct NDEBUG; simpl; [| reflexivity].
          destruct (ev operand) as [e | |]; reflexivity. }
    rewrite Haddend.
    destruct (gepAddendSpec NDEBUG ev ty operand); simpl; auto.
Qed.

(** Where every struct index and every allocation size met on the way fits
    32 bits, the GetElementPtr case computes what the specification
    describes. *)
Lemma getElementPtr_spec (ce : llvm.ConstantExpr) :
  getOpcode ce = I.GetElementPtr ->
  gepFitsUnsigned (gep_type_begin ce) (gep_indices (operands ce)) ->
  evalConstantExpr NDEBUG ev ce = getElementPtrSpec NDEBUG ev ce.
Proof.
  intros Hop Hfit. unfold evalConstantExpr, getElementPtrSpec, dispatch.
  rewrite Hop.
  destruct (evalOperand ev ce 0) as [op1 | |]; simpl; try reflexivity.
  destruct (evalOperand ev ce 1) as [op2 | |]; simpl; try reflexivity.
  destruct (evalOperand ev ce 2) as [op3 | |]; simpl; try reflexivity.
  destruct (cast_ConstantExpr NDEBUG op1) as [a | |]; simpl; try reflexivity.
  rewrite gepLoop_spec by exact Hfit. reflexivity.
Qed.

End GetElementPtr.

(** C1. On a 64-bit layout, the address just past an array of 2^32 bytes
    that starts at 4096: the specification multiplies the index 1 by the
    allocation size 2^32 of the array and arrives at 4096 + 2^32;
    [evalConstantExpr] has put that size into an [unsigned], multiplies by 0
    and returns 4096. *)
Theorem gep_element_size_truncated (d : BitVector.Delegated)
    (FB : FloatBuilder (BitVector.ints d)) (NDEBUG : bool) :
  let ev := @evalConstant (BitVector.ints d) FB PackedLayout.layout NDEBUG in
  getTypeAllocSize (TargetLayout := PackedLayout.layout) Examples.hugeArray
    = 4294967296 /\
  getElementPtrSpec (TL := PackedLayout.layout) NDEBUG ev Examples.pastHugeArray
    = RetConstant (IB := BitVector.ints d) (BitVector.mk (4096 + 4294967296) 64) /\
  evalConstantExpr (TL := PackedLayout.layout) NDEBUG ev Examples.pastHugeArray
    = RetConstant (IB := BitVector.ints d) (BitVector.mk 4096 64).
Proof.
  intros ev. unfold ev. repeat split; vm_compute; reflexivity.
Qed.

(** Over bit vectors, with assertions compiled out, an ICmp node with a
    predicate of the other table returns the outcome of the equality. *)
Example unhandled_predicate_returns_true (d : BitVector.Delegated)
    (FB : FloatBuilder (BitVector.ints d)) (TL : TargetLayout) :
  @evalConstant (BitVector.ints d) FB TL true
    (CExpr I.ICmp FCMP_TRUE (IntegerTy 1) [ConstantInt 32 7; ConstantInt 32 7])
  = RetConstant (IB := BitVector.ints d) (BitVector.mk 1 1) /\
  @evalConstant (BitVector.ints d) FB TL false
    (CExpr I.ICmp FCMP_TRUE (IntegerTy 1) [ConstantInt 32 7; ConstantInt 32 7])
  = Abort [AssertionFailed "unhandled ICmp predicate"].
Proof. split; reflexivity. Qed.

(** Element 3 of field 2 of the third record from 4096: 4096 + 2 * 20 + 12
    + 3 * 2, in the evaluator and in the specification alike. *)
Example gep_into_record (d : BitVector.Delegated)
    (FB : FloatBuilder (BitVector.ints d)) (NDEBUG : bool) :
  let ev := @evalConstant (BitVector.ints d) FB PackedLayout.layout NDEBUG in
  evalConstantExpr (TL := PackedLayout.layout) NDEBUG ev Examples.fieldElement
    = RetConstant (IB := BitVector.ints d) (BitVector.mk 4154 64) /\
  getElementPtrSpec (TL := PackedLayout.layout) NDEBUG ev Examples.fieldElement
    = evalConstantExpr (TL := PackedLayout.layout) NDEBUG ev
        Examples.fieldElement.
Proof.
  intros ev. unfold ev. split; [reflexivity |].
  symmetry. apply getElementPtr_spec; [reflexivity |].
  cbv -[Z.le Z.lt]. lia.
Qed.

(** ** The theorems at concrete inputs *)

Section Witnesses.

Import Examples Recording.

#[local] Existing Instance Recording.ints.
#[local] Existing Instance Recording.floats.
#[local] Existing Instance PackedLayout.layout.

Lemma unsupported_opcode_aborts_after_its_operands_witness :
  supportedOpcode (getOpcode addrSpaceCastNode) = false /\
  (forall v, evalConstantExpr false (recorded false) addrSpaceCastNode <> Ret v) /\
  evalConstantExpr false (recorded false) addrSpaceCastNode
    = Abort [ Dump addrSpaceCastNode;
              ErrsText ("error: unknown ConstantExpr type" ++ newline);
              ErrsText "opcode: ";
              ErrsOpcode I.AddrSpaceCast;
              ErrsText newline ].
Proof.
  split; [reflexivity |].
  split.
  - exact (proj1 (unsupported_opcode_aborts_after_its_operands false
                    (recorded false) addrSpaceCastNode eq_refl)).
  - rewrite (proj2 (unsupported_opcode_aborts_after_its_operands false
                      (recorded false) addrSpaceCastNode eq_refl)).
    reflexivity.
Defined.

(** The claim C2 as it is worded fails on a node whose operand cannot be
    folded: the operands are folded before the opcode is looked at (lines
    54-56). An [addrspacecast] of an [addrspacecast] ends with the
    diagnostic of the inner node, in either build; an [addrspacecast] of a
    comparison with a predicate outside its table ends, with assertions, at
    the failed assertion of the comparison; and an [addrspacecast] of an
    [add] that lacks its second operand is, with [NDEBUG], an access
    through a null reference, with no diagnostic at all. The dump of the
    outer node is in none of these outputs. *)
Lemma unsupported_opcode_without_its_diagnostic :
  let outer := mkConstantExpr I.AddrSpaceCast noPredicate
                 (PointerTy (IntegerTy 16)) [addrSpaceCast] in
  let unhandled := CExpr I.ICmp BAD_ICMP_PREDICATE (IntegerTy 1)
                     [ConstantInt 32 7; ConstantInt 32 7] in
  let over := mkConstantExpr I.AddrSpaceCast noPredicate
                (PointerTy (IntegerTy 16)) [unhandled] in
  supportedOpcode (getOpcode outer) = false /\
  supportedOpcode (getOpcode over) = false /\
  (forall NDEBUG,
     evalConstantExpr NDEBUG (recorded NDEBUG) outer
       = Abort [ Dump addrSpaceCastNode;
                 ErrsText ("error: unknown ConstantExpr type" ++ newline);
                 ErrsText "opcode: ";
                 ErrsOpcode I.AddrSpaceCast;
                 ErrsText newline ]) /\
  Dump addrSpaceCastNode <> Dump outer /\
  evalConstantExpr false (recorded false) over
    = Abort [AssertionFailed "unhandled ICmp predicate"] /\
  evalConstantExpr true (recorded true)
    (mkConstantExpr I.AddrSpaceCast noPredicate (PointerTy (IntegerTy 16))
       [CExpr I.Add noPredicate (IntegerTy 8) [ConstantInt 8 250]])
    = Undefined.
Proof.
  intros outer unhandled over.
  split; [reflexivity |]. split; [reflexivity |].
  split; [intros []; reflexivity |].
  split; [discriminate |]. split; reflexivity.
Qed.

Lemma unhandled_predicate_stops_at_assertion_witness :
  icmpTable BAD_ICMP_PREDICATE = false /\
  fcmpTable FCMP_TRUE = false /\
  evalConstantExpr false (recorded false)
    (mkConstantExpr I.ICmp BAD_ICMP_PREDICATE (IntegerTy 1)
       [ConstantInt 32 7; ConstantInt 32 7])
    = Abort [AssertionFailed "unhandled ICmp predicate"] /\
  evalConstantExpr false (recorded false)
    (mkConstantExpr I.FCmp FCMP_TRUE (IntegerTy 1)
       [ConstantFP 64 0; ConstantFP 64 0])
    = Abort [AssertionFailed "unhandled FCmp predicate"].
Proof.
  split; [reflexivity |]. split; [reflexivity |]. split.
  - exact (proj2 (proj1 (unhandled_predicate_stops_at_assertion
                           (recorded false) BAD_ICMP_PREDICATE (IntegerTy 1)
                           [ConstantInt 32 7; ConstantInt 32 7]) eq_refl)
             (Some (constant (Const 7 32))) (Some (constant (Const 7 32)))
             None eq_refl eq_refl eq_refl).
  - exact (proj2 (proj2 (unhandled_predicate_stops_at_assertion
                           (recorded false) FCMP_TRUE (IntegerTy 1)
                           [ConstantFP 64 0; ConstantFP 64 0]) eq_refl)
             (Some (fconstant (FConst 0 64))) (Some (fconstant (FConst 0 64)))
             None eq_refl eq_refl eq_refl).
Defined.

(** C3. Where assertions are compiled out, a comparison node with a
    predicate outside the table of its switch is not a fatal error: the
    [default] label is [assert(0 && ...)] with no statement after it, and
    control falls into the first case. The ICmp node with a predicate
    outside the integer table on 7 and 7 returns the builder's [Eq] of its
    operands, and the FCmp node with [FCMP_TRUE] on two zeros returns the
    builder's [FOeq], with nothing on the error stream, where the claim has
    a diagnostic, the end of the process and no value. *)
Theorem unhandled_predicate_returns_a_value :
  icmpTable BAD_ICMP_PREDICATE = false /\
  fcmpTable FCMP_TRUE = false /\
  evalConstantExpr true (recorded true)
    (mkConstantExpr I.ICmp BAD_ICMP_PREDICATE (IntegerTy 1)
       [ConstantInt 32 7; ConstantInt 32 7])
    = RetConstant (IB := ints) (FB := floats)
        (Binary "Eq" (Const 7 32) (Const 7 32)) /\
  evalConstantExpr true (recorded true)
    (mkConstantExpr I.FCmp FCMP_TRUE (IntegerTy 1)
       [ConstantFP 64 0; ConstantFP 64 0])
    = RetConstant (IB := ints) (FB := floats)
        (Binary "FOeq" (FConst 0 64) (FConst 0 64)).
Proof.
  split; [reflexivity |]. split; [reflexivity |]. split.
  - rewrite (proj1 (unhandled_predicate_falls_through (recorded true)
                      BAD_ICMP_PREDICATE (IntegerTy 1)
                      [ConstantInt 32 7; ConstantInt 32 7]) eq_refl).
    reflexivity.
  - rewrite (proj2 (unhandled_predicate_falls_through (recorded true)
                      FCMP_TRUE (IntegerTy 1)
                      [ConstantFP 64 0; ConstantFP 64 0]) eq_refl).
    reflexivity.
Qed.

Lemma select_folds_all_operands_witness :
  let ce := mkConstantExpr I.Select noPredicate (IntegerTy 8)
              [ConstantInt 1 1; ConstantInt 8 3; addrSpaceCast] in
  let ce' := mkConstantExpr I.Select noPredicate (IntegerTy 8)
               [ConstantInt 1 0; ConstantInt 8 3; ConstantInt 8 5] in
  recorded false (ConstantInt 1 1) = Ret (Some (constant (Const 1 1))) /\
  recorded false (ConstantInt 8 3) = Ret (Some (constant (Const 3 8))) /\
  recorded false addrSpaceCast = Abort (unknownConstantExpr addrSpaceCastNode) /\
  evalConstantExpr false (recorded false) ce
    = Abort (unknownConstantExpr addrSpaceCastNode) /\
  evalConstantExpr false (recorded false) ce' = RetConstant (IB := ints) (FB := floats) (Const 5 8).
Proof.
  intros ce ce'.
  split; [reflexivity |]. split; [reflexivity |]. split; [reflexivity |].
  split.
  - exact (proj1 (proj2 (proj2
             (select_folds_all_operands false (recorded false) noPredicate
                (IntegerTy 8) (ConstantInt 1 1) (ConstantInt 8 3)
                addrSpaceCast [])))
             (constant (Const 1 1)) (Some (constant (Const 3 8)))
             (unknownConstantExpr addrSpaceCastNode)
             eq_refl eq_refl eq_refl).
  - exact (proj1 (proj2
             (select_folds_all_operands false (recorded false) noPredicate
                (IntegerTy 8) (ConstantInt 1 0) (ConstantInt 8 3)
                (ConstantInt 8 5) []))
             (constant (Const 0 1)) (Some (constant (Const 3 8)))
             (Some (constant (Const 5 8))) eq_refl eq_refl eq_refl).
Defined.

Lemma pointer_casts_zero_extend_witness :
  recorded false (ConstantInt 64 0x1234)
    = Ret (Some (constant (Const 0x1234 64))) /\
  evalConstantExpr false (recorded false)
    (mkConstantExpr I.IntToPtr noPredicate (PointerTy (IntegerTy 8))
       [ConstantInt 64 0x1234])
    = RetConstant (IB := ints) (FB := floats) (Resize "ZExt" (Const 0x1234 64) 0 64) /\
  evalConstantExpr false (recorded false)
    (mkConstantExpr I.PtrToInt noPredicate (IntegerTy 8)
       [ConstantInt 64 0x1234])
    = RetConstant (IB := ints) (FB := floats) (Resize "ZExt" (Const 0x1234 64) 0 8).
Proof.
  split; [reflexivity |]. split.
  - exact (proj1 (pointer_casts_zero_extend false (recorded false)
                    noPredicate (PointerTy (IntegerTy 8))
                    (ConstantInt 64 0x1234) (Const 0x1234 64) eq_refl)).
  - exact (proj1 (proj2 (pointer_casts_zero_extend false (recorded false)
                           noPredicate (IntegerTy 8)
                           (ConstantInt 64 0x1234) (Const 0x1234 64)
                           eq_refl))).
Defined.

Lemma fptrunc_is_fpext_witness :
  recorded false (ConstantFP 64 0x4014000000000000)
    = Ret (Some (fconstant (FConst 0x4014000000000000 64))) /\
  evalConstantExpr false (recorded false)
    (mkConstantExpr I.FPTrunc noPredicate (FloatingTy 32)
       [ConstantFP 64 0x4014000000000000])
    = RetFConstant (IB := ints) (FB := floats)
        (Rounded1 "FExt" (FConst 0x4014000000000000 64) 32
           rmNearestTiesToEven).
Proof.
  split; [reflexivity |].
  exact (proj2 (fptrunc_is_fpext false (recorded false) noPredicate
                  noPredicate (FloatingTy 32)
                  [ConstantFP 64 0x4014000000000000])
           (ConstantFP 64 0x4014000000000000)
           (FConst 0x4014000000000000 64) eq_refl eq_refl).
Defined.

Lemma float_operations_round_to_nearest_even_witness :
  let op1 := Some (fconstant (FConst 0x4014000000000000 64)) in
  let op2 := Some (fconstant (Rounded1 "SToF" (Const 7 32) 64
                                rmNearestTiesToEven)) in
  let sum := RetFConstant (IB := ints) (FB := floats)
               (Rounded2 "FAdd" (FConst 0x4014000000000000 64)
                  (Rounded1 "SToF" (Const 7 32) 64 rmNearestTiesToEven)
                  rmNearestTiesToEven) in
  floatOperation false rmNearestTiesToEven (getOpcode faddNode)
    (getWidthForLLVMType (getType faddNode)) op1 op2 = Some sum /\
  dispatch false (recorded false) faddNode op1 op2 None = sum /\
  recorded false (CExpr I.FAdd noPredicate (FloatingTy 64) (operands faddNode))
    = sum /\
  Forall (eq rmNearestTiesToEven)
    [rmNearestTiesToEven; rmNearestTiesToEven].
Proof.
  intros op1 op2 sum.
  split; [reflexivity |]. split.
  - exact (proj1 float_operations_round_to_nearest_even
             Recording.ints Recording.floats PackedLayout.layout false
             (recorded false) faddNode op1 op2 None sum eq_refl).
  - split; [reflexivity |].
    apply (proj2 float_operations_round_to_nearest_even
             PackedLayout.layout false
             (CExpr I.FAdd noPredicate (FloatingTy 64) (operands faddNode))
             (fconstant
                (Rounded2 "FAdd" (FConst 0x4014000000000000 64)
                   (Rounded1 "SToF" (Const 7 32) 64 rmNearestTiesToEven)
                   rmNearestTiesToEven)) eq_refl).
Defined.

Lemma width_changes_extract_and_extend_witness :
  let c := BitVector.mk 0xFF 8 in
  0 <= 3 < 8 /\
  0 < BitVector.width c /\
  BitVector.wellFormed c /\
  0 <= 12 < 16 /\
  Z.testbit (BitVector.value (BitVector.Extract c 0 8)) 3 = true /\
  Z.testbit (BitVector.value (BitVector.ZExt c 16)) 12 = false /\
  Z.testbit (BitVector.value (BitVector.SExt c 16)) 12 = true.
Proof.
  intros c.
  assert (Hwf : BitVector.wellFormed c)
    by (unfold BitVector.wellFormed; simpl; lia).
  split; [lia |]. split; [simpl; lia |]. split; [exact Hwf |].
  split; [lia |]. split; [| split].
  - rewrite (proj1 (proj2 width_changes_extract_and_extend) c 8 3) by lia.
    reflexivity.
  - rewrite (proj1 (proj2 (proj2 width_changes_extract_and_extend)) c 16 12
               Hwf) by lia.
    reflexivity.
  - rewrite (proj2 (proj2 (proj2 width_changes_extract_and_extend)) c 16 12)
      by (simpl; try exact Hwf; lia).
    reflexivity.
Defined.

End Witnesses.

(** ** What the evaluator evaluates, and when *)

Section Evaluation.

Context {IB : IntBuilder} {FB : FloatBuilder IB} {TL : TargetLayout}.
Variable NDEBUG : bool.

Lemma In_gep_indices (ops : list llvm.Constant) (c : llvm.Constant) :
  In c (gep_indices ops) -> In c ops.
Proof. destruct ops as [| c0 ops]; simpl; auto. Qed.

Lemma evalOperand_ext (ev1 ev2 : llvm.Constant -> result (ref Expr))
    (ce : llvm.ConstantExpr) (i : nat) :
  (forall c, nth_error (operands ce) i = Some c -> ev1 c = ev2 c) ->
  evalOperand ev1 ce i = evalOperand ev2 ce i.
Proof.
  intros H. rewrite !evalOperand_nth_error.
  destruct (nth_error (operands ce) i) as [c |]; auto.
Qed.

Lemma gepAddend_ext (ev1 ev2 : llvm.Constant -> result (ref Expr))
    (ty : Type_) (operand : llvm.Constant) :
  ev1 operand = ev2 operand ->
  gepAddend NDEBUG ev1 ty operand = gepAddend NDEBUG ev2 ty operand.
Proof.
  intros H. unfold gepAddend.
  destruct (asStructType ty) as [st |]; [reflexivity |].
  destruct (cast_SequentialType NDEBUG ty) as [set | |]; simpl;
    [rewrite H |..]; reflexivity.
Qed.

Lemma gepLoop_ext (ev1 ev2 : llvm.Constant -> result (ref Expr))
    (indices : list llvm.Constant) :
  (forall c, In c indices -> ev1 c = ev2 c) ->
  forall CurTy base,
    gepLoop NDEBUG ev1 CurTy indices base = gepLoop NDEBUG ev2 CurTy indices base.
Proof.
  induction indices as [| operand rest IH]; intros H CurTy base; simpl.
  - reflexivity.
  - destruct (gep_type_deref NDEBUG CurTy) as [ty | |]; simpl;
      [| reflexivity ..].
    rewrite (gepAddend_ext ev1 ev2) by (apply H; left; reflexivity).
    destruct (gepAddend NDEBUG ev2 ty operand); simpl; auto.
    apply IH. intros c Hc. apply H. right. exact Hc.
Qed.

(** The switch calls the evaluator in the GetElementPtr case only, and there
    on the index operands only. *)
Lemma dispatch_ext (ev1 ev2 : llvm.Constant -> result (ref Expr))
    (ce : llvm.ConstantExpr) (op1 op2 op3 : ref Expr) :
  (getOpcode ce = I.GetElementPtr ->
   forall c, In c (gep_indices (operands ce)) -> ev1 c = ev2 c) ->
  dispatch NDEBUG ev1 ce op1 op2 op3 = dispatch NDEBUG ev2 ce op1 op2 op3.
Proof.
  intros H. unfold dispatch.
  destruct (getOpcode ce) eqn:Hop; try reflexivity.
  destruct (cast_ConstantExpr NDEBUG op1) as [a | |]; simpl; try reflexivity.
  rewrite (gepLoop_ext ev1 ev2) by (apply H; reflexivity).
  reflexivity.
Qed.

Lemma evalConstantExpr_ext (ev1 ev2 : llvm.Constant -> result (ref Expr))
    (ce : llvm.ConstantExpr) :
  (forall c, In c (operands ce) -> ev1 c = ev2 c) ->
  evalConstantExpr NDEBUG ev1 ce = evalConstantExpr NDEBUG ev2 ce.
Proof.
  intros H. unfold evalConstantExpr.
  rewrite !(evalOperand_ext ev1 ev2)
    by (intros c Hc; apply H; eapply nth_error_In; exact Hc).
  destruct (evalOperand ev2 ce 0); simpl; auto.
  destruct (evalOperand ev2 ce 1); simpl; auto.
  destruct (evalOperand ev2 ce 2); simpl; auto.
  apply dispatch_ext. intros _ c Hc. apply H, In_gep_indices, Hc.
Qed.

Variable ev : llvm.Constant -> result (ref Expr).

(** X1. The operands are evaluated before the opcode is looked at: when
    the evaluation of one of the first three operands aborts, the ones
    before it having returned, the call ends there with the same output on
    the error stream, whatever the opcode of the node is. *)
Theorem operand_abort_ends_the_call (ce : llvm.ConstantExpr) (i : nat)
    (d : list Diag) :
  (i < 3)%nat ->
  (forall j, (j < i)%nat -> exists v, evalOperand ev ce j = Ret v) ->
  evalOperand ev ce i = Abort d ->
  evalConstantExpr NDEBUG ev ce = Abort d.
Proof.
  intros Hi Hbefore Habort. unfold evalConstantExpr.
  destruct i as [| [| [| i]]]; try lia.
  - rewrite Habort. reflexivity.
  - destruct (Hbefore 0%nat ltac:(lia)) as [v0 ->].
    rewrite Habort. reflexivity.
  - destruct (Hbefore 0%nat ltac:(lia)) as [v0 ->].
    destruct (Hbefore 1%nat ltac:(lia)) as [v1 ->].
    rewrite Habort. reflexivity.
Qed.

End Evaluation.

Section Independence.

Context {IB : IntBuilder} {FB : FloatBuilder IB} {TL : TargetLayout}.
Variable NDEBUG : bool.

(** X2. The call evaluates no constant but the operands of its node: two
    evaluators that agree on them give the same outcome. *)
Theorem only_operands_are_evaluated
    (ev1 ev2 : llvm.Constant -> result (ref Expr)) (ce : llvm.ConstantExpr) :
  (forall c, In c (operands ce) -> ev1 c = ev2 c) ->
  evalConstantExpr NDEBUG ev1 ce = evalConstantExpr NDEBUG ev2 ce.
Proof. apply evalConstantExpr_ext. Qed.

(** X3. Except in the GetElementPtr case, an operand after the third is
    never evaluated: two evaluators that agree on the first three operands
    give the same outcome. *)
Theorem operands_past_the_third_are_ignored
    (ev1 ev2 : llvm.Constant -> result (ref Expr)) (ce : llvm.ConstantExpr) :
  getOpcode ce <> I.GetElementPtr ->
  (forall c, In c (firstn 3 (operands ce)) -> ev1 c = ev2 c) ->
  evalConstantExpr NDEBUG ev1 ce = evalConstantExpr NDEBUG ev2 ce.
Proof.
  intros Hop H. unfold evalConstantExpr.
  assert (Hfetch : forall i, (i < 3)%nat ->
            evalOperand ev1 ce i = evalOperand ev2 ce i).
  { intros i Hi. apply evalOperand_ext. intros c Hc. apply H.
    apply nth_error_In with (n := i).
    rewrite nth_error_firstn.
    destruct (Nat.ltb_spec i 3); [exact Hc | lia]. }
  rewrite !Hfetch by lia.
  destruct (evalOperand ev2 ce 0); simpl; auto.
  destruct (evalOperand ev2 ce 1); simpl; auto.
  destruct (evalOperand ev2 ce 2); simpl; auto.
  apply dispatch_ext. intros Hgep. contradiction.
Qed.

Variable ev : llvm.Constant -> result (ref Expr).

(** X4. Of the cases of the switch, only the casts and conversions to a
    declared width look at the declared type of the node, and only ICmp and
    FCmp look at its predicate: for every other supported opcode the
    outcome is the same at any declared type, and at any predicate. *)
Theorem declared_type_and_predicate_seldom_read (o : I.Opcode)
    (ops : list llvm.Constant) :
  supportedOpcode o = true ->
  (readsDeclaredType o = false ->
   forall p ty1 ty2,
     evalConstantExpr NDEBUG ev (mkConstantExpr o p ty1 ops) =
     evalConstantExpr NDEBUG ev (mkConstantExpr o p ty2 ops)) /\
  (o <> I.ICmp -> o <> I.FCmp ->
   forall p1 p2 ty,
     evalConstantExpr NDEBUG ev (mkConstantExpr o p1 ty ops) =
     evalConstantExpr NDEBUG ev (mkConstantExpr o p2 ty ops)).
Proof.
  intros Hsup. split.
  - intros Hty p ty1 ty2.
    destruct o; try discriminate Hsup; try discriminate Hty; reflexivity.
  - intros Hi Hf p1 p2 ty.
    destruct o; try discriminate Hsup; try contradiction; reflexivity.
Qed.

End Independence.

(** X5. Outside the GetElementPtr case the layout is asked one question,
    the width of the declared type: on two layouts that give it the same
    width, a node of any other opcode has the same outcome. *)
Theorem layout_read_for_declared_width_only {IB : IntBuilder}
    {FB : FloatBuilder IB} (TL1 TL2 : TargetLayout) (NDEBUG : bool)
    (ev : llvm.Constant -> result (ref Expr)) (ce : llvm.ConstantExpr) :
  getOpcode ce <> I.GetElementPtr ->
  @getWidthForLLVMType TL1 (getType ce) = @getWidthForLLVMType TL2 (getType ce) ->
  @evalConstantExpr IB FB TL1 NDEBUG ev ce =
  @evalConstantExpr IB FB TL2 NDEBUG ev ce.
Proof.
  intros Hop Hw. unfold evalConstantExpr.
  destruct (evalOperand ev ce 0); simpl; auto.
  destruct (evalOperand ev ce 1); simpl; auto.
  destruct (evalOperand ev ce 2); simpl; auto.
  unfold dispatch. rewrite Hw.
  destruct (getOpcode ce) eqn:Hcase; try reflexivity. contradiction.
Qed.

(** ** Where an abort comes from *)

Section AbortProvenance.

Context {IB : IntBuilder} {FB : FloatBuilder IB} {TL : TargetLayout}.
Variable NDEBUG : bool.
Variable ev : llvm.Constant -> result (ref Expr).

Lemma bind_Abort_inv {A B : Type} (m : result A) (k : A -> result B)
    (d : list Diag) :
  bind m k = Abort d -> m = Abort d \/ exists a, m = Ret a /\ k a = Abort d.
Proof.
  destruct m as [a | d' |]; simpl; intros H; try discriminate H.
  - right. exists a. auto.
  - left. injection H as ->. reflexivity.
Qed.

Lemma cast_failure_Abort_inv {A : Type} (msg : string) (d : list Diag) :
  @cast_failure NDEBUG A msg = Abort d ->
  NDEBUG = false /\ d = [AssertionFailed msg].
Proof.
  unfold cast_failure, assert_false. destruct NDEBUG; [discriminate |].
  intros H. injection H as <-. auto.
Qed.

Lemma cast_ConstantExpr_Abort_inv (r : ref Expr) (d : list Diag) :
  cast_ConstantExpr NDEBUG r = Abort d -> NDEBUG = false /\ castAssertion d.
Proof.
  destruct r as [[a | f] |]; simpl; try discriminate;
    intros H; apply cast_failure_Abort_inv in H as [Hdbg ->];
    (split; [exact Hdbg |]); [right | left]; reflexivity.
Qed.

Lemma cast_FConstantExpr_Abort_inv (r : ref Expr) (d : list Diag) :
  cast_FConstantExpr NDEBUG r = Abort d -> NDEBUG = false /\ castAssertion d.
Proof.
  destruct r as [[a | f] |]; simpl; try discriminate;
    intros H; apply cast_failure_Abort_inv in H as [Hdbg ->];
    (split; [exact Hdbg |]); [right | left]; reflexivity.
Qed.

Lemma cast_ConstantExpr_only_Abort_inv (r : ref Expr) (d : list Diag) :
  cast_ConstantExpr_only NDEBUG r = Abort d ->
  NDEBUG = false /\ castAssertion d.
Proof.
  destruct r as [[a | f] |]; simpl; try discriminate.
  - intros H. apply cast_failure_Abort_inv in H as [Hdbg ->].
    split; [exact Hdbg | right; reflexivity].
  - unfold assert_false. destruct NDEBUG; [discriminate |].
    intros H. injection H as <-. split; [reflexivity | left; reflexivity].
Qed.

Lemma cast_ConstantInt_Abort_inv (v : llvm.Constant) (d : list Diag) :
  cast_ConstantInt_getZExtValue NDEBUG v = Abort d ->
  NDEBUG = false /\ castAssertion d.
Proof.
  destruct v; simpl; try discriminate;
    intros H; apply cast_failure_Abort_inv in H as [Hdbg ->];
    (split; [exact Hdbg | right; reflexivity]).
Qed.

Lemma cast_SequentialType_Abort_inv (t : Type_) (d : list Diag) :
  cast_SequentialType NDEBUG t = Abort d -> NDEBUG = false /\ castAssertion d.
Proof.
  unfold cast_SequentialType, assert_false.
  destruct (asSequentialType t); [discriminate |].
  destruct NDEBUG; [discriminate |].
  intros H. injection H as <-. split; [reflexivity | right; reflexivity].
Qed.

Lemma gep_type_deref_Abort_inv (CurTy : option Type_) (d : list Diag) :
  gep_type_deref NDEBUG CurTy = Abort d -> NDEBUG = false /\ castAssertion d.
Proof.
  destruct CurTy; simpl; [discriminate |].
  intros H. apply cast_failure_Abort_inv in H as [Hdbg ->].
  split; [exact Hdbg | left; reflexivity].
Qed.

Lemma deref_no_abort {A : Type} (r : ref A) (d : list Diag) :
  deref r <> Abort d.
Proof. destruct r; discriminate. Qed.

(** An abort of a sequence of casts and accesses is the failed assertion of
    one of the casts. *)
Ltac cast_abort H :=
  unfold int1, int2, float2, fcmp2 in H;
  repeat (apply bind_Abort_inv in H; destruct H as [H | (? & _ & H)]);
  solve [ discriminate H
        | destruct (deref_no_abort _ _ H)
        | apply cast_ConstantExpr_Abort_inv in H; exact H
        | apply cast_FConstantExpr_Abort_inv in H; exact H
        | apply cast_ConstantExpr_only_Abort_inv in H; exact H
        | apply cast_ConstantInt_Abort_inv in H; exact H
        | apply cast_SequentialType_Abort_inv in H; exact H
        | apply gep_type_deref_Abort_inv in H; exact H ].

Ltac of_cast H :=
  let Hc := fresh "Hc" in
  match type of H with
  | _ = Abort ?d =>
      assert (Hc : NDEBUG = false /\ castAssertion d) by (cast_abort H)
  end;
  destruct Hc; left; right; right; auto.

Lemma gepAddend_Abort_inv (ty : Type_) (operand : llvm.Constant)
    (d : list Diag) :
  gepAddend NDEBUG ev ty operand = Abort d ->
  (NDEBUG = false /\ castAssertion d) \/ ev operand = Abort d.
Proof.
  unfold gepAddend. destruct (asStructType ty) as [st |]; intros H.
  - left. cast_abort H.
  - apply bind_Abort_inv in H as [H | (set & _ & H)]; [left; cast_abort H |].
    apply bind_Abort_inv in H as [H | (e & _ & H)]; [right; exact H |].
    left. cast_abort H.
Qed.

Lemma gepLoop_Abort_inv (indices : list llvm.Constant) :
  forall CurTy base d,
    gepLoop NDEBUG ev CurTy indices base = Abort d ->
    (NDEBUG = false /\ castAssertion d) \/
    exists c, In c indices /\ ev c = Abort d.
Proof.
  induction indices as [| operand rest IH]; intros CurTy base d; simpl.
  - discriminate.
  - intros H.
    apply bind_Abort_inv in H as [H | (ty & _ & H)]; [left; cast_abort H |].
    apply bind_Abort_inv in H as [H | (addend & _ & H)].
    + apply gepAddend_Abort_inv in H as [H | H]; [left; exact H |].
      right. exists operand. auto.
    + apply IH in H as [H | (c & Hc & Hev)]; [left; exact H |].
      right. exists c. auto.
Qed.

Lemma dispatch_Abort_inv (ce : llvm.ConstantExpr) (op1 op2 op3 : ref Expr)
    (d : list Diag) :
  dispatch NDEBUG ev ce op1 op2 op3 = Abort d ->
  abortsByItself NDEBUG ce d \/
  exists c, In c (gep_indices (operands ce)) /\ ev c = Abort d.
Proof.
  unfold dispatch, abortsByItself.
  destruct (getOpcode ce) eqn:Hop; intros H;
    try (injection H as <-; left; left;
         split; [reflexivity | unfold unknownConstantExpr; rewrite Hop;
                               reflexivity]);
    try (of_cast H; fail).
  - (* GetElementPtr *)
    apply bind_Abort_inv in H as [H | (a & _ & H)].
    { of_cast H. }
    apply bind_Abort_inv in H as [H | (r & _ & H)]; [| discriminate H].
    apply gepLoop_Abort_inv in H as [[Hdbg Hd] | H]; [| right; exact H].
    left. right. right. auto.
  - (* ICmp *)
    unfold evalICmp, assert_false in H.
    destruct (getPredicate ce); try (of_cast H; fail);
      (destruct NDEBUG eqn:Hdbg;
       [ destruct op1 as [[a1 | f1] |], op2 as [[a2 | f2] |];
         discriminate H
       | injection H as <-; left; right; left; simpl; auto ]).
  - (* FCmp *)
    unfold evalFCmp, assert_false in H.
    destruct (getPredicate ce); try (of_cast H; fail);
      (destruct NDEBUG eqn:Hdbg;
       [ destruct op1 as [[a1 | f1] |], op2 as [[a2 | f2] |];
         discriminate H
       | injection H as <-; left; right; left; simpl; auto ]).
Qed.

Lemma evalOperand_Abort_inv (ce : llvm.ConstantExpr) (i : nat) (d : list Diag) :
  evalOperand ev ce i = Abort d ->
  exists c, In c (operands ce) /\ ev c = Abort d.
Proof.
  rewrite evalOperand_nth_error.
  destruct (nth_error (operands ce) i) as [c |] eqn:Hc; [| discriminate].
  intros H. exists c. split; [eapply nth_error_In; exact Hc | exact H].
Qed.

Lemma evalConstantExpr_Abort_inv (ce : llvm.ConstantExpr) (d : list Diag) :
  evalConstantExpr NDEBUG ev ce = Abort d ->
  abortsByItself NDEBUG ce d \/ exists c, In c (operands ce) /\ ev c = Abort d.
Proof.
  unfold evalConstantExpr.
  destruct (evalOperand ev ce 0) as [op1 | d1 |] eqn:H1; simpl;
    [| intros H; injection H as <-; right;
       eapply evalOperand_Abort_inv; exact H1 | discriminate].
  destruct (evalOperand ev ce 1) as [op2 | d2 |] eqn:H2; simpl;
    [| intros H; injection H as <-; right;
       eapply evalOperand_Abort_inv; exact H2 | discriminate].
  destruct (evalOperand ev ce 2) as [op3 | d3 |] eqn:H3; simpl;
    [| intros H; injection H as <-; right;
       eapply evalOperand_Abort_inv; exact H3 | discriminate].
  intros H. apply dispatch_Abort_inv in H as [H | (c & Hc & Hev)].
  - left. exact H.
  - right. exists c. split; [apply In_gep_indices, Hc | exact Hev].
Qed.

(** X6. Whenever the call ends the process with output on the error
    stream, the output is one of four: the dump, the error line and the
    opcode written by the [default] case, on an opcode the switch does not
    name; with assertions, the failed assertion on a predicate outside the
    table of a comparison; with assertions, the failed assertion of an
    [llvm::cast] on a null or misclassified operand of a supported opcode;
    or the output of the evaluation of one of its operands, which aborted.
    With [NDEBUG] that leaves the [default] case and the operands. (The
    builder methods and the layout queries are calls that return.) *)
Theorem abort_is_of_the_node_or_of_an_operand (ce : llvm.ConstantExpr)
    (d : list Diag) :
  evalConstantExpr NDEBUG ev ce = Abort d ->
  (supportedOpcode (getOpcode ce) = false /\
   d = [ Dump ce;
         ErrsText ("error: unknown ConstantExpr type" ++ newline);
         ErrsText "opcode: ";
         ErrsOpcode (getOpcode ce);
         ErrsText newline ]) \/
  (NDEBUG = false /\
   predicateInTable (getOpcode ce) (getPredicate ce) = false /\
   ((getOpcode ce = I.ICmp /\
     d = [AssertionFailed "unhandled ICmp predicate"]) \/
    (getOpcode ce = I.FCmp /\
     d = [AssertionFailed "unhandled FCmp predicate"]))) \/
  (NDEBUG = false /\ supportedOpcode (getOpcode ce) = true /\
   (d = [AssertionFailed "isa<> used on a null pointer"] \/
    d = [AssertionFailed "cast<Ty>() argument of incompatible type!"])) \/
  (exists c, In c (operands ce) /\ ev c = Abort d).
Proof.
  intros H. apply evalConstantExpr_Abort_inv in H as [[H | [H | H]] | H]; auto.
Qed.

End AbortProvenance.

(** ** Constants that fold to a value *)

Section WellKinded.

Context {IB : IntBuilder} {FB : FloatBuilder IB} {TL : TargetLayout}.
Variable NDEBUG : bool.
Variable ev : llvm.Constant -> result (ref Expr).

Lemma returnsItsKind_integer (c : llvm.Constant) :
  returnsItsKind ev c -> kindCheck c = Some IntegerKind ->
  exists a, ev c = Ret (Some (Constant_ a)).
Proof.
  intros H Hk. destruct (H _ Hk) as ([a | f] & Hev & Hkind);
    [| discriminate Hkind].
  exists a. exact Hev.
Qed.

Lemma returnsItsKind_float (c : llvm.Constant) :
  returnsItsKind ev c -> kindCheck c = Some FloatKind ->
  exists f, ev c = Ret (Some (FConstant f)).
Proof.
  intros H Hk. destruct (H _ Hk) as ([a | f] & Hev & Hkind);
    [discriminate Hkind |].
  exists f. exact Hev.
Qed.

Lemma gepPathChecks_integer (indices : list llvm.Constant) :
  forall ty,
    gepPathChecks ty (combine indices (map kindCheck indices)) = true ->
    Forall (fun c => kindCheck c = Some IntegerKind) indices.
Proof.
  induction indices as [| operand rest IH]; intros ty; simpl.
  - constructor.
  - destruct (gep_type_next ty operand) as [next |]; [| discriminate].
    intros H. apply andb_prop in H as [Hstep Hrest].
    constructor; [| eapply IH; exact Hrest].
    destruct (asStructType ty).
    + destruct operand; try discriminate Hstep. reflexivity.
    + destruct (asSequentialType ty); [| discriminate Hstep].
      destruct (kindCheck operand) as [[|] |]; try discriminate Hstep.
      reflexivity.
Qed.

Lemma gepLoop_returns (indices : list llvm.Constant) :
  Forall (returnsItsKind ev) indices ->
  forall ty base,
    gepPathChecks ty (combine indices (map kindCheck indices)) = true ->
    exists r, gepLoop NDEBUG ev (Some ty) indices base = Ret r.
Proof.
  induction 1 as [| operand rest Hop Hrest IH]; intros ty base; simpl.
  - eexists. reflexivity.
  - destruct (gep_type_next ty operand) as [next |] eqn:Hnext;
      [| discriminate].
    intros H. apply andb_prop in H as [Hstep Hpath].
    unfold gepAddend, cast_SequentialType.
    destruct (asStructType ty).
    + destruct operand; try discriminate Hstep. simpl. apply IH, Hpath.
    + destruct (asSequentialType ty); [| discriminate Hstep].
      destruct (kindCheck operand) as [[|] |] eqn:Hk; try discriminate Hstep.
      destruct (returnsItsKind_integer _ Hop Hk) as (a & ->). simpl.
      apply IH, Hpath.
Qed.

Lemma operand_returns (ops : list llvm.Constant) (i : nat) :
  Forall (returnsItsKind ev) ops ->
  Forall (fun c => kindCheck c = Some IntegerKind) ops ->
  exists v, nth i (map ev ops) (Ret null) = Ret v.
Proof.
  intros Hops. revert i.
  induction Hops as [| c ops Hc Hops IH]; intros i Hk.
  - destruct i; eexists; reflexivity.
  - inversion Hk as [| ? ? Hkc Hkops]; subst.
    destruct i; simpl; [| apply IH, Hkops].
    destruct (returnsItsKind_integer _ Hc Hkc) as (a & ->).
    eexists. reflexivity.
Qed.

(** An operand list checked against one or two expected kinds. *)
Ltac checked_operands Hops H :=
  match type of H with
  | context [map kindCheck ?ops] =>
      destruct ops as [| ?a [| ?b [| ?c ?rest]]]; simpl in H;
      try discriminate H
  end;
  repeat match type of H with
         | context [kindCheck ?a] =>
             let Hk := fresh "Hk" in
             destruct (kindCheck a) as [[|] |] eqn:Hk; simpl in H;
             try discriminate H
         end;
  repeat match goal with
         | Hall : Forall (returnsItsKind ev) (_ :: _) |- _ =>
             let Hc := fresh "Hc" in
             inversion Hall as [| ? ? Hc ?]; subst; clear Hall
         end;
  repeat match goal with
         | Hc : returnsItsKind ev ?a, Hk : kindCheck ?a = Some IntegerKind |- _ =>
             let Hev := fresh "Hev" in
             destruct (returnsItsKind_integer _ Hc Hk) as (? & Hev); clear Hc
         | Hc : returnsItsKind ev ?a, Hk : kindCheck ?a = Some FloatKind |- _ =>
             let Hev := fresh "Hev" in
             destruct (returnsItsKind_float _ Hc Hk) as (? & Hev); clear Hc
         end.

Lemma evalConstantExpr_kind (ce : llvm.ConstantExpr) (k : Kind) :
  Forall (returnsItsKind ev) (operands ce) ->
  nodeKind (getOpcode ce) (getPredicate ce) (operands ce)
    (map kindCheck (operands ce)) = Some k ->
  exists e, evalConstantExpr NDEBUG ev ce = Ret (Some e) /\ kindOf e = k.
Proof.
  destruct ce as [o p ty ops]. simpl. intros Hops H.
  unfold evalConstantExpr, evalOperand, dispatch. simpl.
  destruct o; simpl in H; try discriminate H.
  all: try (checked_operands Hops H; simpl;
            repeat match goal with Hev : ev _ = Ret _ |- _ =>
                     rewrite Hev; clear Hev end;
            simpl;
            try (destruct p; simpl in H; try discriminate H; simpl);
            injection H as <-; eexists; split; reflexivity).
  - (* GetElementPtr *)
    destruct ops as [| base indices]; simpl in H; [discriminate H |].
    destruct (kindCheck base) as [[|] |] eqn:Hbase; try discriminate H.
    destruct (gepPathChecks (typeOf base)
                (combine indices (map kindCheck indices))) eqn:Hpath;
      [| discriminate H].
    injection H as <-.
    inversion Hops as [| ? ? Hb Hindices]; subst.
    destruct (returnsItsKind_integer _ Hb Hbase) as (a & Ha).
    pose proof (gepPathChecks_integer _ _ Hpath) as Hint.
    simpl. rewrite Ha. simpl.
    destruct (operand_returns indices 0 Hindices Hint) as (op2 & ->).
    destruct (operand_returns indices 1 Hindices Hint) as (op3 & ->).
    simpl. change (gep_type_begin _) with (Some (typeOf base)).
    destruct (gepLoop_returns indices Hindices (typeOf base)
                (ZExt a getPointerWidth) Hpath) as (r & ->).
    simpl. eexists. split; reflexivity.
  - (* Select *)
    destruct ops as [| cond [| a [| b [| c rest]]]]; simpl in H;
      try discriminate H;
      try (destruct (kindCheck cond) as [[|] |]; discriminate H);
      try (destruct (kindCheck cond) as [[|] |]; try discriminate H;
           destruct (kindCheck a) as [[|] |]; discriminate H).
    + destruct (kindCheck cond) as [[|] |] eqn:Hcond; try discriminate H.
      destruct (kindCheck a) as [ka |] eqn:Hka; try discriminate H.
      destruct (kindCheck b) as [kb |] eqn:Hkb; try discriminate H.
      destruct (isBool (typeOf cond) && Kind_eqb ka kb) eqn:Hc;
        [| discriminate H].
      injection H as <-.
      apply andb_prop in Hc as [_ Hsame].
      inversion Hops as [| ? ? Hc1 Hrest1]; subst.
      inversion Hrest1 as [| ? ? Hc2 Hrest2]; subst.
      inversion Hrest2 as [| ? ? Hc3 _]; subst.
      destruct (returnsItsKind_integer _ Hc1 Hcond) as (vc & Hvc).
      destruct (Hc2 _ Hka) as (ea & Hva & Hea).
      destruct (Hc3 _ Hkb) as (eb & Hvb & Heb).
      simpl. rewrite Hvc, Hva, Hvb. simpl. destruct (isTrue vc); eexists; split; try reflexivity.
      * exact Hea.
      * rewrite Heb. destruct ka, kb; try discriminate Hsame; reflexivity.
    + destruct (kindCheck cond) as [[|] |]; try discriminate H;
        destruct (kindCheck a) as [[|] |]; try discriminate H;
        destruct (kindCheck b) as [[|] |]; try discriminate H;
        destruct (kindCheck c) as [[|] |]; discriminate H.
Qed.

End WellKinded.

(** X7. A constant that passes the check of kinds is folded to a value in
    either build, without the call reaching a failure point of its own (an
    unknown opcode, an unhandled predicate, a failed cast, a null
    reference): every node has as many operands as its case reads, of the
    class the case casts them to, a comparison has a predicate of its
    table, a select an [i1] condition and two values of one kind, and the
    indices of a GetElementPtr are a path from the type of its pointer
    operand, with integer literals as struct indices. The value is of the
    kind the check computes. (The builder methods and the layout queries
    are calls that return.) *)
Theorem checked_constants_fold_to_a_value {IB : IntBuilder}
    {FB : FloatBuilder IB} {TL : TargetLayout} (NDEBUG : bool)
    (c : llvm.Constant) (k : Kind) :
  kindCheck c = Some k ->
  exists e, evalConstant NDEBUG c = Ret (Some e) /\ kindOf e = k.
Proof.
  revert k.
  induction c as [bits value | bits pattern | o p ty ops IH]
    using Constant_nested_ind; intros k Hk.
  - injection Hk as <-. eexists. split; reflexivity.
  - injection Hk as <-. eexists. split; reflexivity.
  - cbn [evalConstant]. simpl in Hk.
    apply (evalConstantExpr_kind NDEBUG (evalConstant NDEBUG)
             (mkConstantExpr o p ty ops)); [exact IH | exact Hk].
Qed.

(** ** The build mode *)

Section BuildMode.

Context {IB : IntBuilder} {FB : FloatBuilder IB} {TL : TargetLayout}.

Lemma cast_ConstantExpr_release (r : ref Expr) (a : ConstantExpr) :
  cast_ConstantExpr false r = Ret a -> cast_ConstantExpr true r = Ret a.
Proof. destruct r as [[c | f] |]; simpl; auto; discriminate. Qed.

Lemma cast_FConstantExpr_release (r : ref Expr) (a : FConstantExpr) :
  cast_FConstantExpr false r = Ret a -> cast_FConstantExpr true r = Ret a.
Proof. destruct r as [[c | f] |]; simpl; auto; discriminate. Qed.

(** A sequence of casts that returns with assertions returns the same
    without. *)
Ltac release H :=
  unfold int1, int2, float2, fcmp2 in H |- *;
  repeat (let Hm := fresh "Hm" in
          apply bind_Ret_inv in H; destruct H as (? & Hm & H);
          first [ apply cast_ConstantExpr_release in Hm
                | apply cast_FConstantExpr_release in Hm ];
          rewrite Hm; simpl);
  exact H.

Lemma gepAddend_release (ev1 ev2 : llvm.Constant -> result (ref Expr))
    (ty : Type_) (operand : llvm.Constant) (addend : ConstantExpr) :
  (forall r, ev1 operand = Ret r -> ev2 operand = Ret r) ->
  gepAddend false ev1 ty operand = Ret addend ->
  gepAddend true ev2 ty operand = Ret addend.
Proof.
  intros Hev. unfold gepAddend, cast_SequentialType.
  destruct (asStructType ty) as [st |].
  - destruct operand; simpl; auto; discriminate.
  - destruct (asSequentialType ty) as [elementType |]; simpl;
      [| discriminate].
    destruct (ev1 operand) as [e | |] eqn:He; simpl; try discriminate.
    rewrite (Hev e eq_refl). simpl.
    destruct e as [[a | f] |]; simpl; auto; discriminate.
Qed.

Lemma gepLoop_release (ev1 ev2 : llvm.Constant -> result (ref Expr))
    (indices : list llvm.Constant) :
  (forall c r, In c indices -> ev1 c = Ret r -> ev2 c = Ret r) ->
  forall CurTy base r,
    gepLoop false ev1 CurTy indices base = Ret r ->
    gepLoop true ev2 CurTy indices base = Ret r.
Proof.
  induction indices as [| operand rest IH]; intros Hev CurTy base r; simpl.
  - auto.
  - destruct CurTy as [ty |]; simpl; [| discriminate].
    destruct (gepAddend false ev1 ty operand) as [addend | |] eqn:Haddend;
      simpl; try discriminate.
    rewrite (gepAddend_release ev1 ev2 ty operand addend);
      [| intros e; apply Hev; left; reflexivity | exact Haddend].
    simpl. apply IH. intros c e Hc. apply Hev. right. exact Hc.
Qed.

Lemma dispatch_release (ev1 ev2 : llvm.Constant -> result (ref Expr))
    (ce : llvm.ConstantExpr) (op1 op2 op3 r : ref Expr) :
  (forall c e, In c (gep_indices (operands ce)) ->
     ev1 c = Ret e -> ev2 c = Ret e) ->
  dispatch false ev1 ce op1 op2 op3 = Ret r ->
  dispatch true ev2 ce op1 op2 op3 = Ret r.
Proof.
  intros Hev. unfold dispatch.
  destruct (getOpcode ce); intros H; try discriminate H;
    try (release H; fail).
  - (* BitCast *)
    destruct op1 as [[a | f] |]; simpl in H |- *; auto; discriminate H.
  - (* GetElementPtr *)
    apply bind_Ret_inv in H as (a & Ha & H).
    apply cast_ConstantExpr_release in Ha. rewrite Ha. simpl.
    apply bind_Ret_inv in H as (v & Hv & H).
    rewrite (gepLoop_release ev1 ev2 _ Hev _ _ _ Hv). exact H.
  - (* ICmp *)
    unfold evalICmp, assert_false in H |- *.
    destruct (getPredicate ce); try discriminate H; release H.
  - (* FCmp *)
    unfold evalFCmp, assert_false in H |- *.
    destruct (getPredicate ce); try discriminate H; release H.
Qed.

Lemma evalOperand_release (ev1 ev2 : llvm.Constant -> result (ref Expr))
    (ce : llvm.ConstantExpr) (i : nat) (r : ref Expr) :
  (forall c e, In c (operands ce) -> ev1 c = Ret e -> ev2 c = Ret e) ->
  evalOperand ev1 ce i = Ret r -> evalOperand ev2 ce i = Ret r.
Proof.
  intros Hev. rewrite !evalOperand_nth_error.
  destruct (nth_error (operands ce) i) as [c |] eqn:Hc; [| auto].
  apply Hev. eapply nth_error_In. exact Hc.
Qed.

Lemma evalConstantExpr_release (ev1 ev2 : llvm.Constant -> result (ref Expr))
    (ce : llvm.ConstantExpr) (r : ref Expr) :
  (forall c e, In c (operands ce) -> ev1 c = Ret e -> ev2 c = Ret e) ->
  evalConstantExpr false ev1 ce = Ret r ->
  evalConstantExpr true ev2 ce = Ret r.
Proof.
  intros Hev H. unfold evalConstantExpr in H |- *.
  apply bind_Ret_inv in H as (op1 & H1 & H).
  apply bind_Ret_inv in H as (op2 & H2 & H).
  apply bind_Ret_inv in H as (op3 & H3 & H).
  rewrite (evalOperand_release ev1 ev2 ce 0 op1 Hev H1).
  rewrite (evalOperand_release ev1 ev2 ce 1 op2 Hev H2).
  rewrite (evalOperand_release ev1 ev2 ce 2 op3 Hev H3).
  simpl. apply (dispatch_release ev1 ev2); [| exact H].
  intros c e Hc. apply Hev, In_gep_indices, Hc.
Qed.

(** X8. Compiling the assertions out changes no value: whenever the fold of
    a constant returns with assertions, the fold with [NDEBUG] returns the
    same expression. The two builds differ only where the build with
    assertions does not return. *)
Theorem value_with_assertions_is_the_value_without (c : llvm.Constant)
    (r : ref Expr) :
  evalConstant false c = Ret r -> evalConstant true c = Ret r.
Proof.
  revert r.
  induction c as [bits value | bits pattern | o p ty ops IH]
    using Constant_nested_ind; intros r; try (simpl; auto; fail).
  cbn [evalConstant]. apply evalConstantExpr_release.
  intros c e Hc. simpl in Hc. rewrite Forall_forall in IH. apply IH, Hc.
Qed.

End BuildMode.

(** ** What the call returns *)

Section Returns.

Context {IB : IntBuilder} {FB : FloatBuilder IB} {TL : TargetLayout}.
Variable NDEBUG : bool.
Variable ev : llvm.Constant -> result (ref Expr).

Ltac returned H :=
  unfold int1, int2, float2, fcmp2 in H;
  repeat (apply bind_Ret_inv in H; destruct H as (? & _ & H));
  injection H as <-; left; eexists; split; reflexivity.

Lemma dispatch_Ret_kind (ce : llvm.ConstantExpr) (op1 op2 op3 r : ref Expr) :
  getOpcode ce <> I.Select ->
  dispatch NDEBUG ev ce op1 op2 op3 = Ret r ->
  (exists e, r = Some e /\ kindOf e = resultKind (getOpcode ce)) \/
  (NDEBUG = true /\ getOpcode ce = I.BitCast /\ r = op1).
Proof.
  intros Hsel. unfold dispatch.
  destruct (getOpcode ce) eqn:Hop; intros H;
    try discriminate H; try contradiction; try (returned H; fail).
  - (* BitCast *)
    unfold cast_ConstantExpr_only, cast_failure, assert_false in H.
    destruct op1 as [[a | f] |].
    + injection H as <-. left. eexists. split; reflexivity.
    + destruct NDEBUG; discriminate H.
    + destruct NDEBUG; [| discriminate H].
      injection H as <-. right. auto.
  - unfold evalICmp, assert_false in H.
    destruct (getPredicate ce); try (returned H; fail);
      destruct NDEBUG; try discriminate H; returned H.
  - unfold evalFCmp, assert_false in H.
    destruct (getPredicate ce); try (returned H; fail);
      destruct NDEBUG; try discriminate H; returned H.
Qed.

(** X9. What a case returns is a reference that is not null, to an
    expression of the kind its opcode fixes (a floating-point constant for
    the floating-point arithmetic, FPTrunc, FPExt, UIToFP and SIToFP, an
    integer constant for every other opcode), with two exceptions. BitCast
    returns the reference of its operand without reading through it (line
    82): where the assertion of the cast is compiled out, what it returns
    is that reference as it is, and on a node without operands the null
    reference; with assertions such a node ends at the failed assertion.
    Select returns the reference of the chosen operand as it is, and that
    is the null reference when the node has no third operand and the
    condition is not true. *)
Theorem result_kind_is_fixed_by_the_opcode :
  (forall (ce : llvm.ConstantExpr) (r : ref Expr),
      getOpcode ce <> I.Select ->
      evalConstantExpr NDEBUG ev ce = Ret r ->
      (exists e, r = Some e /\ kindOf e = resultKind (getOpcode ce)) \/
      (NDEBUG = true /\ getOpcode ce = I.BitCast /\
       evalOperand ev ce 0 = Ret r)) /\
  (forall p ty,
      evalConstantExpr NDEBUG ev (mkConstantExpr I.BitCast p ty []) =
      if NDEBUG then Ret null
      else Abort [AssertionFailed "isa<> used on a null pointer"]) /\
  (forall p ty c a cond op2,
      ev c = Ret (Some cond) -> ev a = Ret op2 ->
      Expr_isTrue cond = false ->
      evalConstantExpr NDEBUG ev (mkConstantExpr I.Select p ty [c; a])
        = Ret null).
Proof.
  split; [| split].
  - intros ce r Hsel H. unfold evalConstantExpr in H.
    apply bind_Ret_inv in H as (op1 & H1 & H).
    apply bind_Ret_inv in H as (op2 & _ & H).
    apply bind_Ret_inv in H as (op3 & _ & H).
    apply dispatch_Ret_kind in H as [H | (Hdbg & Hop & ->)];
      [left; exact H | | exact Hsel].
    right. auto.
  - intros p ty. unfold evalConstantExpr, evalOperand, dispatch. simpl.
    unfold assert_false. destruct NDEBUG; reflexivity.
  - intros p ty c a cond op2 Hc Ha Hcond.
    unfold evalConstantExpr, evalOperand. simpl.
    rewrite Hc, Ha. cbn -[Expr_isTrue]. rewrite Hcond. reflexivity.
Qed.

Lemma dispatch_null_first (ce : llvm.ConstantExpr) (op2 op3 v : ref Expr) :
  (1 <= operandsFollowed (getOpcode ce))%nat ->
  dispatch NDEBUG ev ce null op2 op3 <> Ret v.
Proof.
  unfold dispatch.
  destruct (getOpcode ce); simpl; intros Hn; try lia;
    try (destruct NDEBUG; discriminate).
  - unfold evalICmp, assert_false.
    destruct (getPredicate ce); destruct NDEBUG; discriminate.
  - unfold evalFCmp, assert_false.
    destruct (getPredicate ce); destruct NDEBUG; discriminate.
Qed.

Lemma dispatch_null_second (ce : llvm.ConstantExpr) (op1 op3 v : ref Expr) :
  (2 <= operandsFollowed (getOpcode ce))%nat ->
  dispatch NDEBUG ev ce op1 null op3 <> Ret v.
Proof.
  unfold dispatch.
  destruct (getOpcode ce); simpl; intros Hn; try lia;
    try (destruct NDEBUG; destruct op1 as [[a | f] |]; discriminate).
  - unfold evalICmp, assert_false.
    destruct (getPredicate ce);
      destruct NDEBUG; destruct op1 as [[a | f] |]; discriminate.
  - unfold evalFCmp, assert_false.
    destruct (getPredicate ce);
      destruct NDEBUG; destruct op1 as [[a | f] |]; discriminate.
Qed.

(** X10. The number of operands is not checked: on a node with fewer
    operands than are read through (one for a cast to a declared width, a
    conversion, GetElementPtr or Select, two for a binary operation or a
    comparison) the missing reference stays null, and the call never
    returns a value. BitCast, which reads through none, is not among
    them. *)
Theorem too_few_operands_never_return (ce : llvm.ConstantExpr) :
  (List.length (operands ce) < operandsFollowed (getOpcode ce))%nat ->
  forall v, evalConstantExpr NDEBUG ev ce <> Ret v.
Proof.
  intros Hlen v H. unfold evalConstantExpr in H.
  assert (Hnull : forall i, (List.length (operands ce) <= i)%nat ->
            evalOperand ev ce i = Ret null).
  { intros i Hi. rewrite evalOperand_nth_error.
    apply nth_error_None in Hi. rewrite Hi. reflexivity. }
  assert (Hmax : (operandsFollowed (getOpcode ce) <= 2)%nat)
    by (destruct (getOpcode ce); simpl; lia).
  rewrite (Hnull 2%nat) in H by lia.
  destruct (List.length (operands ce)) as [| [| n]] eqn:Hn.
  - rewrite (Hnull 0%nat), (Hnull 1%nat) in H by lia. simpl in H.
    revert H. apply dispatch_null_first. lia.
  - rewrite (Hnull 1%nat) in H by lia.
    apply bind_Ret_inv in H as (op1 & _ & H). simpl in H.
    revert H. apply dispatch_null_second. lia.
  - lia.
Qed.

End Returns.

(** ** The GetElementPtr loop *)

Section GetElementPtrLoop.

Context {IB : IntBuilder} {FB : FloatBuilder IB} {TL : TargetLayout}.
Variable NDEBUG : bool.
Variable ev : llvm.Constant -> result (ref Expr).

Lemma cast_ConstantExpr_Ret_inv (r : ref Expr) (a : ConstantExpr) :
  cast_ConstantExpr NDEBUG r = Ret a -> r = Some (Constant_ a).
Proof.
  destruct r as [[c | f] |]; simpl; unfold cast_failure, assert_false;
    destruct NDEBUG; try discriminate; intros H; injection H as <-;
    reflexivity.
Qed.

(** X11. The GetElementPtr loop adds one addend for each index operand,
    from left to right, and every addend is made at the pointer width: what
    the loop returns is the base with as many addends added in turn as
    there are index operands, each either a constant of the pointer width
    (a struct step) or the product of the evaluated index, zero-extended to
    the pointer width, and a constant of the pointer width (a sequential
    step). *)
Theorem gep_adds_one_addend_per_index (indices : list llvm.Constant) :
  forall CurTy base r,
    gepLoop NDEBUG ev CurTy indices base = Ret r ->
    exists addends,
      List.length addends = List.length indices /\
      Forall2 (fun operand addend =>
                 (exists offset, addend = alloc offset getPointerWidth) \/
                 (exists index size,
                     ev operand = Ret (Some (Constant_ index)) /\
                     addend = Mul (ZExt index getPointerWidth)
                                  (alloc size getPointerWidth)))
        indices addends /\
      r = fold_left Add addends base.
Proof.
  induction indices as [| operand rest IH]; intros CurTy base r; simpl.
  - intros H. injection H as <-. exists []. repeat split. constructor.
  - intros H.
    apply bind_Ret_inv in H as (ty & _ & H).
    apply bind_Ret_inv in H as (addend & Haddend & H).
    apply IH in H as (addends & Hlen & Hall & ->).
    exists (addend :: addends). simpl. repeat split.
    + rewrite Hlen. reflexivity.
    + constructor; [| exact Hall].
      unfold gepAddend in Haddend.
      destruct (asStructType ty) as [st |].
      * apply bind_Ret_inv in Haddend as (ci & _ & Haddend).
        injection Haddend as <-. left. eexists. reflexivity.
      * apply bind_Ret_inv in Haddend as (set & _ & Haddend).
        apply bind_Ret_inv in Haddend as (e & He & Haddend).
        apply bind_Ret_inv in Haddend as (index & Hindex & Haddend).
        apply bind_Ret_inv in Haddend as (elementType & _ & Haddend).
        injection Haddend as <-. right. do 2 eexists.
        split; [| reflexivity].
        rewrite He. apply cast_ConstantExpr_Ret_inv in Hindex as ->.
        reflexivity.
Qed.

(** X12. The loop over a path is the loop over a first part of the path
    followed by the loop over the rest, from the value and from the type
    that the first part arrives at. *)
Theorem gep_loop_splits_along_the_path (first rest : list llvm.Constant) :
  forall CurTy base,
    gepLoop NDEBUG ev CurTy (first ++ rest) base =
    (r <- gepLoop NDEBUG ev CurTy first base ;;
     gepLoop NDEBUG ev (gepTypeAfter CurTy first) rest r).
Proof.
  induction first as [| operand first IH]; intros CurTy base; simpl.
  - reflexivity.
  - destruct CurTy as [ty |]; simpl.
    + destruct (gepAddend NDEBUG ev ty operand) as [addend | |]; simpl;
        try reflexivity.
      apply IH.
    + destruct NDEBUG; reflexivity.
Qed.

End GetElementPtrLoop.

Section TruncatedLayout.

Context {IB : IntBuilder} {FB : FloatBuilder IB}.
Variable TL : TargetLayout.
Variable NDEBUG : bool.
Variable ev : llvm.Constant -> result (ref Expr).

Lemma gepLoop_truncatedLayout (indices : list llvm.Constant) :
  forall CurTy base,
    gepLoop (TL := TL) NDEBUG ev CurTy indices base =
    gepLoopSpec (TL := truncatedLayout TL) NDEBUG ev CurTy indices base.
Proof.
  induction indices as [| operand rest IH]; intros CurTy base; simpl.
  - reflexivity.
  - destruct CurTy as [ty |]; simpl; [| reflexivity].
    assert (Haddend : gepAddend (TL := TL) NDEBUG ev ty operand =
                      gepAddendSpec (TL := truncatedLayout TL) NDEBUG ev ty operand).
    { unfold gepAddend, gepAddendSpec.
      destruct (asStructType ty); [reflexivity |].
      destruct (asSequentialType ty); reflexivity. }
    rewrite Haddend.
    destruct (gepAddendSpec (TL := truncatedLayout TL) NDEBUG ev ty operand);
      simpl; auto.
Qed.

(** X13. On every GetElementPtr node, at any sizes, the evaluator computes
    what the specification describes for the layout that reports each
    allocation size and looks up each struct index cut to 32 bits: the
    two conversions to [unsigned] are the whole of the difference. *)
Theorem gep_is_the_specification_on_the_truncated_layout
    (ce : llvm.ConstantExpr) :
  getOpcode ce = I.GetElementPtr ->
  evalConstantExpr (TL := TL) NDEBUG ev ce =
  getElementPtrSpec (TL := truncatedLayout TL) NDEBUG ev ce.
Proof.
  intros Hop. unfold evalConstantExpr, getElementPtrSpec, dispatch.
  rewrite Hop.
  destruct (evalOperand ev ce 0) as [op1 | |]; simpl; [| reflexivity ..].
  destruct (evalOperand ev ce 1) as [op2 | |]; simpl; [| reflexivity ..].
  destruct (evalOperand ev ce 2) as [op3 | |]; simpl; [| reflexivity ..].
  destruct (cast_ConstantExpr NDEBUG op1) as [a | |]; simpl;
    [| reflexivity ..].
  rewrite gepLoop_truncatedLayout. reflexivity.
Qed.

End TruncatedLayout.

(** ** The predicate tables *)

(** X14. No two predicates of a table are folded by the same builder
    method: in the calls the recording builder keeps, the ICmp folds of the
    same operands under two different predicates of the integer table
    differ, and so do the FCmp folds under two different predicates of the
    floating-point table. *)
Theorem table_predicates_call_distinct_methods (NDEBUG : bool)
    (p1 p2 : Predicate) (a b : Recording.node) :
  p1 <> p2 ->
  (icmpTable p1 = true -> icmpTable p2 = true ->
   evalICmp NDEBUG p1 (Some (Recording.constant a)) (Some (Recording.constant b))
   <> evalICmp NDEBUG p2 (Some (Recording.constant a)) (Some (Recording.constant b))) /\
  (fcmpTable p1 = true -> fcmpTable p2 = true ->
   evalFCmp NDEBUG p1 (Some (Recording.fconstant a)) (Some (Recording.fconstant b))
   <> evalFCmp NDEBUG p2 (Some (Recording.fconstant a)) (Some (Recording.fconstant b))).
Proof.
  intros Hne. split; intros H1 H2;
    destruct p1; try discriminate H1;
    destruct p2; try discriminate H2;
    try (exfalso; apply Hne; reflexivity); discriminate.
Qed.

(** ** Operands and their folded values *)

Section FoldedValues.

Context {IB : IntBuilder} {FB : FloatBuilder IB} {TL : TargetLayout}.
Variable NDEBUG : bool.
Variable ev : llvm.Constant -> result (ref Expr).

(** X15. Outside the GetElementPtr case a node is folded from the outcomes
    of its operands alone: two nodes of the same supported opcode,
    predicate and declared type whose operands evaluate alike have the same
    outcome, whatever the operands are. *)
Theorem operands_matter_through_their_outcomes (o : I.Opcode) (p : Predicate)
    (ty : Type_) (ops1 ops2 : list llvm.Constant) :
  supportedOpcode o = true ->
  o <> I.GetElementPtr ->
  map ev ops1 = map ev ops2 ->
  evalConstantExpr NDEBUG ev (mkConstantExpr o p ty ops1) =
  evalConstantExpr NDEBUG ev (mkConstantExpr o p ty ops2).
Proof.
  intros Hsup Hgep Hmap. unfold evalConstantExpr, evalOperand. simpl.
  rewrite Hmap.
  destruct (nth 0 (map ev ops2) (Ret null)); simpl; auto.
  destruct (nth 1 (map ev ops2) (Ret null)); simpl; auto.
  destruct (nth 2 (map ev ops2) (Ret null)); simpl; auto.
  destruct o; try discriminate Hsup; try contradiction; reflexivity.
Qed.

(** X16. Along a path on which every struct index and every allocation
    size that an index is multiplied by fits 32 bits, the GetElementPtr
    case computes what the specification describes, on the layout as it
    is. *)
Theorem gep_agrees_with_the_specification_within_32_bits
    (ce : llvm.ConstantExpr) :
  getOpcode ce = I.GetElementPtr ->
  gepFitsUnsigned (gep_type_begin ce) (gep_indices (operands ce)) ->
  evalConstantExpr NDEBUG ev ce = getElementPtrSpec NDEBUG ev ce.
Proof. apply getElementPtr_spec. Qed.

End FoldedValues.

(** ** The further properties at concrete inputs *)

Section MoreWitnesses.

Import Examples MoreExamples Recording.

#[local] Existing Instance Recording.ints.
#[local] Existing Instance Recording.floats.
#[local] Existing Instance PackedLayout.layout.

Lemma operand_abort_ends_the_call_witness :
  let ce := truncNode [addrSpaceCast] in
  let d := unknownConstantExpr addrSpaceCastNode in
  (1 < 3)%nat /\
  evalOperand (recorded false) ce 0
    = Ret (Some (constant (Const 0x1234 64))) /\
  evalOperand (recorded false) ce 1 = Abort d /\
  evalConstantExpr false (recorded false) ce = Abort d.
Proof.
  intros ce d.
  split; [lia |]. split; [reflexivity |]. split; [reflexivity |].
  apply (operand_abort_ends_the_call false (recorded false) ce 1 d).
  - lia.
  - intros j Hj. assert (j = 0%nat) as -> by lia.
    eexists. reflexivity.
  - reflexivity.
Defined.

Lemma only_operands_are_evaluated_witness :
  let ce := truncNode [] in
  (forall c, In c (operands ce) -> recorded false c = recordedBut false c) /\
  recorded false poisoned <> recordedBut false poisoned /\
  evalConstantExpr false (recorded false) ce
    = evalConstantExpr false (recordedBut false) ce.
Proof.
  intros ce.
  assert (H : forall c, In c (operands ce) ->
                recorded false c = recordedBut false c).
  { intros c [<- | []]. reflexivity. }
  split; [exact H |]. split; [discriminate |].
  exact (only_operands_are_evaluated false (recorded false)
           (recordedBut false) ce H).
Defined.

Lemma operands_past_the_third_are_ignored_witness :
  let ce := truncNode [ConstantInt 8 1; ConstantInt 8 2; poisoned] in
  getOpcode ce <> I.GetElementPtr /\
  (forall c, In c (firstn 3 (operands ce)) ->
     recorded false c = recordedBut false c) /\
  In poisoned (operands ce) /\
  recorded false poisoned <> recordedBut false poisoned /\
  evalConstantExpr false (recorded false) ce
    = evalConstantExpr false (recordedBut false) ce.
Proof.
  intros ce.
  assert (Hop : getOpcode ce <> I.GetElementPtr) by discriminate.
  assert (H : forall c, In c (firstn 3 (operands ce)) ->
                recorded false c = recordedBut false c).
  { intros c [<- | [<- | [<- | []]]]; reflexivity. }
  split; [exact Hop |]. split; [exact H |].
  split; [simpl; auto |]. split; [discriminate |].
  exact (operands_past_the_third_are_ignored false (recorded false)
           (recordedBut false) ce Hop H).
Defined.

Lemma declared_type_and_predicate_seldom_read_witness :
  supportedOpcode I.Add = true /\
  readsDeclaredType I.Add = false /\
  I.Add <> I.ICmp /\ I.Add <> I.FCmp /\
  evalConstantExpr false (recorded false) (addNode (IntegerTy 8) noPredicate)
    = evalConstantExpr false (recorded false)
        (addNode (FloatingTy 64) noPredicate) /\
  evalConstantExpr false (recorded false) (addNode (IntegerTy 8) noPredicate)
    = evalConstantExpr false (recorded false) (addNode (IntegerTy 8) FCMP_UNE).
Proof.
  split; [reflexivity |]. split; [reflexivity |].
  split; [discriminate |]. split; [discriminate |]. split.
  - exact (proj1 (declared_type_and_predicate_seldom_read false
                    (recorded false) I.Add
                    [ConstantInt 8 250; ConstantInt 8 10] eq_refl)
             eq_refl noPredicate (IntegerTy 8) (FloatingTy 64)).
  - refine (proj2 (declared_type_and_predicate_seldom_read false
                     (recorded false) I.Add
                     [ConstantInt 8 250; ConstantInt 8 10] eq_refl)
              _ _ noPredicate FCMP_UNE (IntegerTy 8)); discriminate.
Defined.

Lemma layout_read_for_declared_width_only_witness :
  let ce := truncNode [] in
  getOpcode ce <> I.GetElementPtr /\
  @getWidthForLLVMType PackedLayout.layout (getType ce)
    = @getWidthForLLVMType layout32 (getType ce) /\
  @getPointerWidth PackedLayout.layout <> @getPointerWidth layout32 /\
  @evalConstantExpr ints floats PackedLayout.layout false (recorded false) ce
    = @evalConstantExpr ints floats layout32 false (recorded false) ce.
Proof.
  intros ce.
  assert (Hop : getOpcode ce <> I.GetElementPtr) by discriminate.
  split; [exact Hop |]. split; [reflexivity |]. split; [discriminate |].
  exact (layout_read_for_declared_width_only PackedLayout.layout layout32
           false (recorded false) ce Hop eq_refl).
Defined.

Lemma abort_is_of_the_node_or_of_an_operand_witness :
  let ce := mkConstantExpr I.Add noPredicate (IntegerTy 8)
              [ConstantInt 8 250] in
  let d := [AssertionFailed "isa<> used on a null pointer"] in
  evalConstantExpr false (recorded false) ce = Abort d /\
  supportedOpcode (getOpcode ce) = true /\
  (d = [AssertionFailed "isa<> used on a null pointer"] \/
   d = [AssertionFailed "cast<Ty>() argument of incompatible type!"]).
Proof.
  intros ce d.
  assert (H : evalConstantExpr false (recorded false) ce = Abort d)
    by reflexivity.
  split; [exact H |].
  destruct (abort_is_of_the_node_or_of_an_operand false (recorded false)
              ce d H)
    as [[Hno _] | [(_ & Hp & _) | [(_ & Hcast) | (c & Hc & Hev)]]].
  - discriminate Hno.
  - discriminate Hp.
  - exact Hcast.
  - destruct Hc as [<- | []]. discriminate Hev.
Defined.

Lemma checked_constants_fold_to_a_value_witness :
  kindCheck chosenField = Some IntegerKind /\
  (exists e, recorded false chosenField = Ret (Some e) /\
             kindOf e = IntegerKind) /\
  (exists e, recorded true chosenField = Ret (Some e) /\
             kindOf e = IntegerKind).
Proof.
  split; [reflexivity |]. split.
  - exact (checked_constants_fold_to_a_value false chosenField IntegerKind
             eq_refl).
  - exact (checked_constants_fold_to_a_value true chosenField IntegerKind
             eq_refl).
Defined.

Lemma value_with_assertions_is_the_value_without_witness :
  let v := Some (constant
             (Binary "Ult" (Const 1 8)
                (Binary "Add" (Const 250 8) (Const 10 8)))) in
  recorded false compareSum = Ret v /\ recorded true compareSum = Ret v.
Proof.
  intros v. split; [reflexivity |].
  exact (value_with_assertions_is_the_value_without compareSum v eq_refl).
Defined.

Lemma result_kind_is_fixed_by_the_opcode_witness :
  let sum := Rounded2 "FAdd" (FConst 0x4014000000000000 64)
               (Rounded1 "SToF" (Const 7 32) 64 rmNearestTiesToEven)
               rmNearestTiesToEven in
  let select := mkConstantExpr I.Select noPredicate (IntegerTy 8)
                  [ConstantInt 1 0; ConstantInt 8 3] in
  getOpcode faddNode <> I.Select /\
  evalConstantExpr false (recorded false) faddNode
    = Ret (Some (fconstant sum)) /\
  (exists e, Some (fconstant sum) = Some e /\ kindOf e = FloatKind) /\
  evalConstantExpr true (recorded true)
    (mkConstantExpr I.BitCast noPredicate (IntegerTy 8) []) = Ret null /\
  recorded false (ConstantInt 1 0) = Ret (Some (constant (Const 0 1))) /\
  Expr_isTrue (constant (Const 0 1)) = false /\
  evalConstantExpr false (recorded false) select = Ret null.
Proof.
  intros sum select.
  assert (Hop : getOpcode faddNode <> I.Select) by discriminate.
  split; [exact Hop |]. split; [reflexivity |]. split; [| split].
  - destruct (proj1 (result_kind_is_fixed_by_the_opcode false
                       (recorded false))
                faddNode (Some (fconstant sum)) Hop eq_refl)
      as [H | (Hdbg & _)]; [exact H | discriminate Hdbg].
  - exact (proj1 (proj2 (result_kind_is_fixed_by_the_opcode true
                           (recorded true)))
             noPredicate (IntegerTy 8)).
  - split; [reflexivity |]. split; [reflexivity |].
    exact (proj2 (proj2 (result_kind_is_fixed_by_the_opcode false
                           (recorded false)))
             noPredicate (IntegerTy 8) (ConstantInt 1 0) (ConstantInt 8 3)
             (constant (Const 0 1)) (Some (constant (Const 3 8)))
             eq_refl eq_refl eq_refl).
Defined.

Lemma too_few_operands_never_return_witness :
  let ce := mkConstantExpr I.Add noPredicate (IntegerTy 8)
              [ConstantInt 8 250] in
  (List.length (operands ce) < operandsFollowed (getOpcode ce))%nat /\
  forall v, evalConstantExpr false (recorded false) ce <> Ret v.
Proof.
  intros ce.
  assert (H : (List.length (operands ce) < operandsFollowed (getOpcode ce))%nat)
    by (simpl; lia).
  split; [exact H |].
  exact (too_few_operands_never_return false (recorded false) ce H).
Defined.

Lemma gep_adds_one_addend_per_index_witness :
  let base := Resize "ZExt" (Resize "ZExt" (Const 4096 64) 0 64) 0 64 in
  let addends :=
    [ Binary "Mul" (Resize "ZExt" (Const 2 64) 0 64) (Const 20 64);
      Const 12 64;
      Binary "Mul" (Resize "ZExt" (Const 3 64) 0 64) (Const 2 64) ] in
  gepLoop false (recorded false) (gep_type_begin fieldElement)
    (gep_indices (operands fieldElement)) base
    = Ret (fold_left (Binary "Add") addends base) /\
  exists addends',
    List.length addends' = 3%nat /\
    fold_left (Binary "Add") addends base
      = fold_left (Binary "Add") addends' base.
Proof.
  intros base addends.
  assert (H : gepLoop false (recorded false) (gep_type_begin fieldElement)
                (gep_indices (operands fieldElement)) base
              = Ret (fold_left (Binary "Add") addends base))
    by reflexivity.
  split; [exact H |].
  destruct (gep_adds_one_addend_per_index false (recorded false)
              (gep_indices (operands fieldElement))
              (gep_type_begin fieldElement) base _ H)
    as (addends' & Hlen & _ & Heq).
  exists addends'. split; [exact Hlen | exact Heq].
Defined.

Lemma gep_is_the_specification_on_the_truncated_layout_witness :
  getOpcode pastHugeArray = I.GetElementPtr /\
  evalConstantExpr false (recorded false) pastHugeArray
    = getElementPtrSpec (TL := truncatedLayout PackedLayout.layout)
        false (recorded false) pastHugeArray /\
  getElementPtrSpec (TL := truncatedLayout PackedLayout.layout)
    false (recorded false) pastHugeArray
    = RetConstant (IB := ints) (FB := floats)
        (Binary "Add"
           (Resize "ZExt" (Resize "ZExt" (Const 4096 64) 0 64) 0 64)
           (Binary "Mul" (Resize "ZExt" (Const 1 64) 0 64) (Const 0 64))).
Proof.
  split; [reflexivity |]. split; [| reflexivity].
  exact (gep_is_the_specification_on_the_truncated_layout
           PackedLayout.layout false (recorded false) pastHugeArray eq_refl).
Defined.

Lemma table_predicates_call_distinct_methods_witness :
  ICMP_ULT <> ICMP_ULE /\
  icmpTable ICMP_ULT = true /\ icmpTable ICMP_ULE = true /\
  evalICmp false ICMP_ULT (Some (constant (Const 1 8)))
    (Some (constant (Const 2 8)))
  <> evalICmp false ICMP_ULE (Some (constant (Const 1 8)))
       (Some (constant (Const 2 8))) /\
  FCMP_OLT <> FCMP_ULT /\
  fcmpTable FCMP_OLT = true /\ fcmpTable FCMP_ULT = true /\
  evalFCmp false FCMP_OLT (Some (fconstant (FConst 0 64)))
    (Some (fconstant (FConst 1 64)))
  <> evalFCmp false FCMP_ULT (Some (fconstant (FConst 0 64)))
       (Some (fconstant (FConst 1 64))).
Proof.
  assert (Hi : ICMP_ULT <> ICMP_ULE) by discriminate.
  assert (Hf : FCMP_OLT <> FCMP_ULT) by discriminate.
  split; [exact Hi |]. split; [reflexivity |]. split; [reflexivity |]. split.
  - exact (proj1 (table_predicates_call_distinct_methods false ICMP_ULT
                    ICMP_ULE (Const 1 8) (Const 2 8) Hi) eq_refl eq_refl).
  - split; [exact Hf |]. split; [reflexivity |]. split; [reflexivity |].
    exact (proj2 (table_predicates_call_distinct_methods false FCMP_OLT
                    FCMP_ULT (FConst 0 64) (FConst 1 64) Hf) eq_refl eq_refl).
Defined.

Lemma operands_matter_through_their_outcomes_witness :
  let sum := CExpr I.Add noPredicate (IntegerTy 8)
               [ConstantInt 8 250; ConstantInt 8 10] in
  let first := CExpr I.BitCast noPredicate (IntegerTy 8) [sum] in
  supportedOpcode I.Trunc = true /\
  I.Trunc <> I.GetElementPtr /\
  map (recorded false) [first] = map (recorded false) [sum] /\
  evalConstantExpr false (recorded false)
    (mkConstantExpr I.Trunc noPredicate (IntegerTy 4) [first])
  = evalConstantExpr false (recorded false)
      (mkConstantExpr I.Trunc noPredicate (IntegerTy 4) [sum]).
Proof.
  intros sum first.
  assert (Hgep : I.Trunc <> I.GetElementPtr) by discriminate.
  split; [reflexivity |]. split; [exact Hgep |]. split; [reflexivity |].
  exact (operands_matter_through_their_outcomes false (recorded false)
           I.Trunc noPredicate (IntegerTy 4) [first] [sum] eq_refl Hgep
           eq_refl).
Defined.

Lemma gep_agrees_with_the_specification_within_32_bits_witness :
  getOpcode fieldElement = I.GetElementPtr /\
  gepFitsUnsigned (gep_type_begin fieldElement)
    (gep_indices (operands fieldElement)) /\
  evalConstantExpr false (recorded false) fieldElement
    = getElementPtrSpec false (recorded false) fieldElement.
Proof.
  assert (Hfit : gepFitsUnsigned (gep_type_begin fieldElement)
                   (gep_indices (operands fieldElement))).
  { cbv -[Z.le Z.lt]. lia. }
  split; [reflexivity |]. split; [exact Hfit |].
  exact (gep_agrees_with_the_specification_within_32_bits false
           (recorded false) fieldElement eq_refl Hfit).
Defined.

End MoreWitnesses.
